(** * clientx: the reconnecting wrapper around the Zinx client

    A model of [clientx/clientx.go].  The methods of [Client] are written as
    programs over the primitive actions the Go code performs (atomic store,
    non-blocking channel operations, [select], context and timer calls, calls
    into the embedded [ziface.IClient]); goroutines are threads of a world
    whose steps interleave, and the Transport and the callers of the package
    are environment actions. *)

From Stdlib Require Import ZArith String Lia Bool.
From stdpp Require Import base list.

(** ** Data *)

(** [time.Duration]: a signed 64-bit count of nanoseconds. *)
Definition Duration := Z.
Definition Millisecond : Duration := 1000000%Z.
Definition Second : Duration := 1000000000%Z.

(** [ziface.IConnection], as far as the package uses it: the two addresses
    printed by the disconnect log line. *)
Record Conn := mkConn { LocalAddr : string; RemoteAddr : string }.

(** An error delivered by the Transport on [GetErrChan()]. *)
Record dial_error := mkDialError { dial_msg : string }.

(** The two values a [context.Context] reports from [Err()]. *)
Inductive ctx_error := Canceled | DeadlineExceeded.

(** Go [error] values that occur in the package. *)
Inductive error :=
| CtxError (e : ctx_error)
| ErrorsNew (s : string)          (* errors.New(s) *)
| DialError (d : dial_error).

(** [err.Error()] *)
Definition Error (e : error) : string :=
  match e with
  | CtxError Canceled => "context canceled"
  | CtxError DeadlineExceeded => "context deadline exceeded"
  | ErrorsNew s => s
  | DialError d => dial_msg d
  end.

(** [strings.Contains(s, sub)] *)
Definition Contains (s sub : string) : bool :=
  match String.index 0 sub s with Some _ => true | None => false end.

(** The two signal channels of a [Client]; both are [chan struct{}] built
    with [make(chan struct{}, 1)]. *)
Inductive chan_id := DisconnectCh | ConnectOkCh.

#[global] Instance chan_id_eq_dec : EqDecision chan_id.
Proof. solve_decision. Defined.

Record chan := mkChan { ch_cap : nat; ch_buf : list unit }.

Definition make_chan (n : nat) : chan := mkChan n [].

Definition chan_full (c : chan) : bool := (ch_cap c <=? length (ch_buf c))%nat.
Definition chan_ready (c : chan) : bool :=
  match ch_buf c with [] => false | _ :: _ => true end.
Definition chan_push (c : chan) : chan := mkChan (ch_cap c) (ch_buf c ++ [()]).
Definition chan_pop (c : chan) : chan := mkChan (ch_cap c) (tail (ch_buf c)).

(** Arguments of [zlog.Errorf] in the supervisor loop. *)
Inductive log_msg :=
| LogDisconnect (local remote : string) (intvl : Duration)
| LogDialErr (e : option dial_error) (intvl : Duration).

(** Values returned by the methods. *)
Inductive retval :=
| RUnit
| RBool (b : bool)
| RError (e : option error).       (* [None] is the nil error *)

(** The receive cases of the [select] statements of the package. *)
Inductive select_case :=
| CaseDone (cx : nat)              (* <-ctx.Done() of context [cx] *)
| CaseRecv (ch : chan_id)          (* <-c.disconnectCh, <-c.connectOkCh *)
| CaseErrChan                      (* err := <-c.GetErrChan() *)
| CaseTimer (t : nat).             (* <-t.C *)

(** ** Programs

    One constructor per primitive action, in continuation-passing form. *)
Inductive prog : Type :=
| Ret (v : retval)                                   (* return v *)
| Continue                                           (* end of a [for] body *)
| Panic                                              (* nil dereference *)
| StoreConnected (b : bool) (k : prog)               (* c.connected.Store(b) *)
| LoadConnected (k : bool -> prog)                   (* c.connected.Load().(bool) *)
| TrySend (ch : chan_id) (k : prog)                  (* select { case ch <- struct{}{}: default: } *)
| TryRecv (ch : chan_id) (k : prog)                  (* select { case <-ch: default: } *)
| Select (cases : list select_case) (k : nat -> option dial_error -> prog)
| ReadCtx (k : option nat -> prog)                   (* c.ctx *)
| ReadCancel (k : option nat -> prog)                (* c.cancel *)
| AssignWithCancel (parent : nat) (k : prog)         (* c.ctx, c.cancel = context.WithCancel(parent) *)
| CallCancel (cx : nat) (k : prog)                   (* cancel() *)
| CtxErr (cx : nat) (k : option ctx_error -> prog)   (* ctx.Err() *)
| ReadIntvl (k : Duration -> prog)                   (* c.reconnectIntvl *)
| WriteIntvl (d : Duration) (k : prog)               (* c.reconnectIntvl = d *)
| TStart (k : prog)                                  (* c.IClient.Start() *)
| TStop (k : prog)                                   (* c.IClient.Stop() *)
| TRestart (k : prog)                                (* c.IClient.Restart() *)
| TConn (k : option Conn -> prog)                    (* c.Conn() *)
| TSetOnConnStart (h : Conn -> prog) (k : prog)      (* c.IClient.SetOnConnStart(h) *)
| TSetOnConnStop (h : Conn -> prog) (k : prog)       (* c.IClient.SetOnConnStop(h) *)
| Errorf (m : log_msg) (k : prog)                    (* zlog.Errorf(...) *)
| Sleep (d : Duration) (k : prog)                    (* time.Sleep(d) *)
| Wake (t : Z) (k : prog)                            (* inside time.Sleep, until the clock reaches t *)
| NewTimer (d : Duration) (k : nat -> prog)          (* t := time.NewTimer(d) *)
| TimerStop (t : nat) (k : prog)                     (* t.Stop() *)
| GoFor (body : prog) (k : prog)                     (* go func() { for { body } }() *)
| User (n : nat) (k : prog).                         (* an action of caller code *)

(** Calling a procedure: run [p] to its [return], then continue with [f]. *)
Fixpoint Call (p : prog) (f : retval -> prog) : prog :=
  match p with
  | Ret v => f v
  | Continue => Continue
  | Panic => Panic
  | StoreConnected b k => StoreConnected b (Call k f)
  | LoadConnected k => LoadConnected (fun b => Call (k b) f)
  | TrySend ch k => TrySend ch (Call k f)
  | TryRecv ch k => TryRecv ch (Call k f)
  | Select cs k => Select cs (fun i v => Call (k i v) f)
  | ReadCtx k => ReadCtx (fun c => Call (k c) f)
  | ReadCancel k => ReadCancel (fun c => Call (k c) f)
  | AssignWithCancel p k => AssignWithCancel p (Call k f)
  | CallCancel c k => CallCancel c (Call k f)
  | CtxErr c k => CtxErr c (fun e => Call (k e) f)
  | ReadIntvl k => ReadIntvl (fun d => Call (k d) f)
  | WriteIntvl d k => WriteIntvl d (Call k f)
  | TStart k => TStart (Call k f)
  | TStop k => TStop (Call k f)
  | TRestart k => TRestart (Call k f)
  | TConn k => TConn (fun c => Call (k c) f)
  | TSetOnConnStart h k => TSetOnConnStart h (Call k f)
  | TSetOnConnStop h k => TSetOnConnStop h (Call k f)
  | Errorf m k => Errorf m (Call k f)
  | Sleep d k => Sleep d (Call k f)
  | Wake t k => Wake t (Call k f)
  | NewTimer d k => NewTimer d (fun t => Call (k t) f)
  | TimerStop t k => TimerStop t (Call k f)
  | GoFor body k => GoFor body (Call k f)
  | User n k => User n (Call k f)
  end.

Declare Scope prog_scope.
Delimit Scope prog_scope with prog.
Bind Scope prog_scope with prog.

(** [a ;; k] gives the action [a] its continuation [k];
    [let! x := a in k] binds the value the action produces. *)
Notation "a ;; k" := (a k%prog)
  (at level 100, k at level 200, right associativity, only parsing) : prog_scope.
Notation "'let!' x ':=' a 'in' k" := (a (fun x => k%prog))
  (at level 10, x binder, a at level 100, k at level 200, only parsing)
  : prog_scope.
Notation "'call!' p ;; k" := (Call p (fun _ => k%prog))
  (at level 100, p at level 9, k at level 200, right associativity, only parsing)
  : prog_scope.
Notation "'return!'" := (Ret RUnit) (only parsing) : prog_scope.

Open Scope prog_scope.

(** ** The methods of [Client] *)

(** [context.Background()] is context 0 of every world. *)
Definition Background : nat := 0.

Definition SetReconnectIntvl (intvl : Duration) : prog :=
  WriteIntvl intvl ;;
  return!.

Definition onConnStart (conn : Conn) : prog :=
  StoreConnected true ;;
  TrySend ConnectOkCh ;;
  return!.

Definition clearConnectOkCh : prog :=
  TryRecv ConnectOkCh ;;
  return!.

Definition onConnStop (conn : Conn) : prog :=
  StoreConnected false ;;
  TrySend DisconnectCh ;;
  return!.

Definition SetOnConnStart (handler : Conn -> prog) : prog :=
  let handlerWrap := fun conn =>
    call! (onConnStart conn) ;;
    call! (handler conn) ;;
    return! in
  TSetOnConnStart handlerWrap ;;
  return!.

Definition SetOnConnStop (handler : Conn -> prog) : prog :=
  let handlerWrap := fun conn =>
    call! (onConnStop conn) ;;
    call! (handler conn) ;;
    return! in
  TSetOnConnStop handlerWrap ;;
  return!.

Definition Stop : prog :=
  let! cancel := ReadCancel in
  match cancel with
  | Some cx => CallCancel cx ;; return!
  | None => return!
  end.

Definition IsConnected : prog :=
  let! b := LoadConnected in
  Ret (RBool b).

(** The [select] of the goroutine started by [StartWithContext], entered
    with [c.ctx] = [cx]: its three cases and their bodies. *)
Definition supervisor_select (cx : nat) : prog :=
  Select [CaseDone cx; CaseRecv DisconnectCh; CaseErrChan] (fun i err =>
    match i with
    | 0 =>
      let! conn := TConn in
      match conn with
      | Some _ => TStop ;; return!
      | None => return!
      end
    | 1 =>
      let! conn1 := TConn in
      match conn1 with
      | None => Panic
      | Some conn1 =>
        let! conn2 := TConn in
        match conn2 with
        | None => Panic
        | Some conn2 =>
          let! intvl := ReadIntvl in
          Errorf (LogDisconnect (LocalAddr conn1) (RemoteAddr conn2) intvl) ;;
          call! clearConnectOkCh ;;
          let! intvl := ReadIntvl in
          Sleep intvl ;;
          TRestart ;;
          Continue
        end
      end
    | _ =>
      let! intvl := ReadIntvl in
      Errorf (LogDialErr err intvl) ;;
      let! intvl := ReadIntvl in
      Sleep intvl ;;
      TRestart ;;
      Continue
    end).

(** The body of the [for] loop of that goroutine.  The operands of the
    [select] are evaluated on entry, so [c.ctx] is read once per iteration. *)
Definition supervisor : prog :=
  let! ctx := ReadCtx in
  match ctx with
  | None => Panic
  | Some cx => supervisor_select cx
  end.

Definition StartWithContext (ctx : nat) : prog :=
  AssignWithCancel ctx ;;
  TStart ;;
  GoFor supervisor ;;
  return!.

(** The [select] of [Connect], entered with [c.ctx] = [cx]. *)
Definition Connect_select (cx : nat) : prog :=
  Select [CaseDone cx; CaseRecv ConnectOkCh] (fun i _ =>
    match i with
    | 0 =>
      let! cctx := ReadCtx in
      match cctx with
      | None => Panic
      | Some cx => let! e := CtxErr cx in Ret (RError (CtxError <$> e))
      end
    | _ => Ret (RError None)
    end).

Definition Connect (ctx : nat) : prog :=
  call! (StartWithContext ctx) ;;
  let! cctx := ReadCtx in
  match cctx with
  | None => Panic
  | Some cx => Connect_select cx
  end.

(** The [select] of [ConnectWithTimeout] on timer [t].  [defer t.Stop()]
    runs after the result has been evaluated, on both returns. *)
Definition ConnectWithTimeout_select (t : nat) : prog :=
  Select [CaseTimer t; CaseRecv ConnectOkCh] (fun i _ =>
    match i with
    | 0 =>
      call! Stop ;;
      TimerStop t ;;
      Ret (RError (Some (ErrorsNew "connect timeout")))
    | _ =>
      TimerStop t ;;
      Ret (RError None)
    end).

Definition ConnectWithTimeout (timeout : Duration) : prog :=
  let! t := NewTimer timeout in
  call! (StartWithContext Background) ;;
  ConnectWithTimeout_select t.

(** ** Worlds *)

(** A context: its strict ancestors (nearest first) and the error it reports
    once cancelled. *)
Record ctx_node := mkCtx { cx_anc : list nat; cx_err : option ctx_error }.

(** A [time.Timer]: the clock value at which it fires. *)
Record timer := mkTimer { tm_when : Z; tm_stopped : bool; tm_received : bool }.

(** A goroutine: what remains of its function and, for the goroutine of
    [StartWithContext], the body of its [for] loop. *)
Record thread := mkThread { t_pc : prog; t_loop : option prog }.

(** The fields of [Client]. *)
Record Client := mkClient {
  c_ctx : option nat;
  c_cancel : option nat;
  c_disconnectCh : chan;
  c_connectOkCh : chan;
  c_connected : bool;
  c_reconnectIntvl : Duration
}.

(** Modelled from the spec: the Transport ([ziface.IClient], built by
    [znet.NewClient]), which is outside [clientx].  It holds the current
    connection handle, the error stream and the two registered lifecycle
    hooks; what it does in reaction to start, stop and restart is left to the
    environment. *)
Record IClient := mkIClient {
  conn : option Conn;
  errChan : list dial_error;
  onConnStartHook : Conn -> prog;
  onConnStopHook : Conn -> prog
}.

Inductive transport_op := OpStart | OpStop | OpRestart.

(** What a goroutine is seen to do. *)
Inductive event :=
| EvStore (b : bool)
| EvTrySend (ch : chan_id) (sent : bool)
| EvTryRecv (ch : chan_id) (got : bool)
| EvSelect (c : select_case) (v : option dial_error)
| EvWithCancel (parent child : nat)
| EvCancel (cx : nat)
| EvTransport (op : transport_op)
| EvSetOnConnStart
| EvSetOnConnStop
| EvLog (m : log_msg)
| EvSleep (d : Duration)
| EvGo (tid : nat)
| EvUser (n : nat).

Record World := mkWorld {
  client : Client;
  iclient : IClient;
  ctxs : list ctx_node;
  timers : list timer;
  now : Z;
  threads : list thread;
  trace : list (nat * event);
  panicked : bool
}.

Definition set_client (c : Client) (w : World) : World :=
  mkWorld c (iclient w) (ctxs w) (timers w) (now w) (threads w) (trace w) (panicked w).
Definition set_iclient (t : IClient) (w : World) : World :=
  mkWorld (client w) t (ctxs w) (timers w) (now w) (threads w) (trace w) (panicked w).
Definition set_ctxs (cs : list ctx_node) (w : World) : World :=
  mkWorld (client w) (iclient w) cs (timers w) (now w) (threads w) (trace w) (panicked w).
Definition set_timers (ts : list timer) (w : World) : World :=
  mkWorld (client w) (iclient w) (ctxs w) ts (now w) (threads w) (trace w) (panicked w).
Definition set_now (t : Z) (w : World) : World :=
  mkWorld (client w) (iclient w) (ctxs w) (timers w) t (threads w) (trace w) (panicked w).
Definition set_threads (ts : list thread) (w : World) : World :=
  mkWorld (client w) (iclient w) (ctxs w) (timers w) (now w) ts (trace w) (panicked w).
Definition set_panicked (b : bool) (w : World) : World :=
  mkWorld (client w) (iclient w) (ctxs w) (timers w) (now w) (threads w) (trace w) b.
Definition emit (tid : nat) (e : event) (w : World) : World :=
  mkWorld (client w) (iclient w) (ctxs w) (timers w) (now w) (threads w)
          (trace w ++ [(tid, e)]) (panicked w).

Definition get_chan (ch : chan_id) (c : Client) : chan :=
  match ch with
  | DisconnectCh => c_disconnectCh c
  | ConnectOkCh => c_connectOkCh c
  end.

Definition set_chan (ch : chan_id) (v : chan) (c : Client) : Client :=
  match ch with
  | DisconnectCh =>
    mkClient (c_ctx c) (c_cancel c) v (c_connectOkCh c) (c_connected c) (c_reconnectIntvl c)
  | ConnectOkCh =>
    mkClient (c_ctx c) (c_cancel c) (c_disconnectCh c) v (c_connected c) (c_reconnectIntvl c)
  end.

Definition set_connected (b : bool) (c : Client) : Client :=
  mkClient (c_ctx c) (c_cancel c) (c_disconnectCh c) (c_connectOkCh c) b (c_reconnectIntvl c).
Definition set_reconnectIntvl (d : Duration) (c : Client) : Client :=
  mkClient (c_ctx c) (c_cancel c) (c_disconnectCh c) (c_connectOkCh c) (c_connected c) d.
Definition set_ctx_cancel (cx : nat) (c : Client) : Client :=
  mkClient (Some cx) (Some cx) (c_disconnectCh c) (c_connectOkCh c) (c_connected c)
           (c_reconnectIntvl c).

Definition set_conn (cn : option Conn) (t : IClient) : IClient :=
  mkIClient cn (errChan t) (onConnStartHook t) (onConnStopHook t).
Definition set_errChan (es : list dial_error) (t : IClient) : IClient :=
  mkIClient (conn t) es (onConnStartHook t) (onConnStopHook t).
Definition set_onConnStart (h : Conn -> prog) (t : IClient) : IClient :=
  mkIClient (conn t) (errChan t) h (onConnStopHook t).
Definition set_onConnStop (h : Conn -> prog) (t : IClient) : IClient :=
  mkIClient (conn t) (errChan t) (onConnStartHook t) h.

(** *** Contexts *)

Definition ctx_err (w : World) (cx : nat) : option ctx_error :=
  n ← ctxs w !! cx; cx_err n.

(** [context.WithCancel(parent)]: the child starts out cancelled when the
    parent already is. *)
Definition with_cancel (parent : ctx_node) (pid : nat) : ctx_node :=
  mkCtx (pid :: cx_anc parent) (cx_err parent).

(** Cancelling context [k] with error [e]: nothing when [k] is already
    cancelled, otherwise [k] and every live descendant take [e]. *)
Definition cancel_ctx (k : nat) (e : ctx_error) (cs : list ctx_node) : list ctx_node :=
  match cs !! k with
  | Some (mkCtx _ None) =>
    imap (fun j n =>
            match cx_err n with
            | Some _ => n
            | None =>
              if bool_decide (j = k \/ k ∈ cx_anc n) then mkCtx (cx_anc n) (Some e) else n
            end) cs
  | _ => cs
  end.

(** *** Timers and sleeping *)

(** The clock value [d] from now; a duration that is not positive expires at
    once. *)
Definition deadline (w : World) (d : Duration) : Z := (now w + Z.max 0 d)%Z.

Definition timer_fired (w : World) (t : nat) : bool :=
  match timers w !! t with
  | Some tm => negb (tm_stopped tm) && negb (tm_received tm) && (tm_when tm <=? now w)%Z
  | None => false
  end.

(** *** The [select] statement *)

Definition case_ready (w : World) (c : select_case) : bool :=
  match c with
  | CaseDone cx => match ctx_err w cx with Some _ => true | None => false end
  | CaseRecv ch => chan_ready (get_chan ch (client w))
  | CaseErrChan => match errChan (iclient w) with [] => false | _ :: _ => true end
  | CaseTimer t => timer_fired w t
  end.

(** The communication of a case that proceeds, and the value it receives. *)
Definition case_fire (c : select_case) (w : World) : World * option dial_error :=
  match c with
  | CaseDone _ => (w, None)
  | CaseRecv ch =>
    (set_client (set_chan ch (chan_pop (get_chan ch (client w))) (client w)) w, None)
  | CaseErrChan =>
    (set_iclient (set_errChan (tail (errChan (iclient w))) (iclient w)) w,
     head (errChan (iclient w)))
  | CaseTimer t =>
    (set_timers (alter (fun tm => mkTimer (tm_when tm) (tm_stopped tm) true) t (timers w)) w,
     None)
  end.

(** ** Steps *)

(** One action of goroutine [tid] whose remaining program is [p]; [pick] is
    the case chosen at a [select].  The result is the world after the action
    and the rest of the program, or [None] when the goroutine cannot proceed:
    it is blocked, or it has finished. *)
Definition act (tid pick : nat) (p : prog) (w : World) : option (World * prog) :=
  match p with
  | Ret _ | Continue | Panic => None
  | StoreConnected b k =>
    Some (emit tid (EvStore b) (set_client (set_connected b (client w)) w), k)
  | LoadConnected k => Some (w, k (c_connected (client w)))
  | TrySend ch k =>
    let c := get_chan ch (client w) in
    if chan_full c then Some (emit tid (EvTrySend ch false) w, k)
    else Some (emit tid (EvTrySend ch true)
                    (set_client (set_chan ch (chan_push c) (client w)) w), k)
  | TryRecv ch k =>
    let c := get_chan ch (client w) in
    if chan_ready c
    then Some (emit tid (EvTryRecv ch true)
                    (set_client (set_chan ch (chan_pop c) (client w)) w), k)
    else Some (emit tid (EvTryRecv ch false) w, k)
  | Select cases k =>
    c ← cases !! pick;
    if case_ready w c
    then let '(w', v) := case_fire c w in Some (emit tid (EvSelect c v) w', k pick v)
    else None
  | ReadCtx k => Some (w, k (c_ctx (client w)))
  | ReadCancel k => Some (w, k (c_cancel (client w)))
  | AssignWithCancel parent k =>
    n ← ctxs w !! parent;
    let child := length (ctxs w) in
    Some (emit tid (EvWithCancel parent child)
               (set_client (set_ctx_cancel child (client w))
                           (set_ctxs (ctxs w ++ [with_cancel n parent]) w)), k)
  | CallCancel cx k =>
    Some (emit tid (EvCancel cx) (set_ctxs (cancel_ctx cx Canceled (ctxs w)) w), k)
  | CtxErr cx k => n ← ctxs w !! cx; Some (w, k (cx_err n))
  | ReadIntvl k => Some (w, k (c_reconnectIntvl (client w)))
  | WriteIntvl d k => Some (set_client (set_reconnectIntvl d (client w)) w, k)
  | TStart k => Some (emit tid (EvTransport OpStart) w, k)
  | TStop k => Some (emit tid (EvTransport OpStop) w, k)
  | TRestart k => Some (emit tid (EvTransport OpRestart) w, k)
  | TConn k => Some (w, k (conn (iclient w)))
  | TSetOnConnStart h k =>
    Some (emit tid EvSetOnConnStart (set_iclient (set_onConnStart h (iclient w)) w), k)
  | TSetOnConnStop h k =>
    Some (emit tid EvSetOnConnStop (set_iclient (set_onConnStop h (iclient w)) w), k)
  | Errorf m k => Some (emit tid (EvLog m) w, k)
  | Sleep d k => Some (emit tid (EvSleep d) w, Wake (deadline w d) k)
  | Wake t k => if (t <=? now w)%Z then Some (w, k) else None
  | NewTimer d k =>
    Some (set_timers (timers w ++ [mkTimer (deadline w d) false false]) w,
          k (length (timers w)))
  | TimerStop t k =>
    Some (set_timers (alter (fun tm => mkTimer (tm_when tm) true (tm_received tm)) t
                            (timers w)) w, k)
  | GoFor body k =>
    Some (emit tid (EvGo (length (threads w)))
               (set_threads (threads w ++ [mkThread body (Some body)]) w), k)
  | User n k => Some (emit tid (EvUser n) w, k)
  end.

(** The goroutine after an action: the end of a [for] body goes back to its
    beginning. *)
Definition resume (t : thread) (p : prog) : thread :=
  match p, t_loop t with
  | Continue, Some body => mkThread body (t_loop t)
  | _, _ => mkThread p (t_loop t)
  end.

Definition is_panic (p : prog) : bool :=
  match p with Panic => true | _ => false end.

(** A step of goroutine [tid].  A panic of any goroutine ends the process:
    no step is taken afterwards. *)
Definition step_thread (tid pick : nat) (w : World) : option World :=
  if panicked w then None else
  t ← threads w !! tid;
  '(w', p) ← act tid pick (t_pc t) w;
  Some (set_panicked (is_panic p) (set_threads (<[tid := resume t p]> (threads w')) w')).

Definition spawn (p : prog) (w : World) : World :=
  set_panicked (panicked w || is_panic p) (set_threads (threads w ++ [mkThread p None]) w).

(** What happens around the package: time passes, callers derive and cancel
    scopes and call methods from their own goroutines, and the Transport
    reports connections, losses and dial failures. *)
Inductive env_action :=
| EnvTick (dt : Z)
| EnvNewCtx (parent : nat)
| EnvCancel (cx : nat) (e : ctx_error)
| EnvCall (p : prog)
| EnvConnStart (cn : Conn)
| EnvConnStop
| EnvSetConn (cn : option Conn)
| EnvDialErr (e : dial_error).

Definition step_env (a : env_action) (w : World) : option World :=
  if panicked w then None else
  match a with
  | EnvTick dt => if (0 <=? dt)%Z then Some (set_now (now w + dt)%Z w) else None
  | EnvNewCtx parent =>
    n ← ctxs w !! parent;
    Some (set_ctxs (ctxs w ++ [with_cancel n parent]) w)
  | EnvCancel cx e =>
    if bool_decide (cx = Background) then None
    else _ ← ctxs w !! cx; Some (set_ctxs (cancel_ctx cx e (ctxs w)) w)
  | EnvCall p => Some (spawn p w)
  | EnvConnStart cn =>
    Some (spawn (onConnStartHook (iclient w) cn)
                (set_iclient (set_conn (Some cn) (iclient w)) w))
  | EnvConnStop =>
    cn ← conn (iclient w);
    Some (spawn (onConnStopHook (iclient w) cn) w)
  | EnvSetConn cn => Some (set_iclient (set_conn cn (iclient w)) w)
  | EnvDialErr e => Some (set_iclient (set_errChan (errChan (iclient w) ++ [e]) (iclient w)) w)
  end.

Inductive label :=
| Go (tid pick : nat)
| Env (a : env_action).

Definition step (l : label) (w : World) : option World :=
  match l with
  | Go tid pick => step_thread tid pick w
  | Env a => step_env a w
  end.

Fixpoint exec (ls : list label) (w : World) : option World :=
  match ls with
  | [] => Some w
  | l :: ls => w' ← step l w; exec ls w'
  end.

(** Goroutine [tid] alone takes [n] steps, picking case [pick] at a select. *)
Definition solo (tid pick n : nat) : list label := replicate n (Go tid pick).

(** [NewClient]: the fields as the constructor leaves them, the package's
    hooks registered with the Transport, and no goroutine yet. *)
Definition NewClient (host : string) (port : Z) : World :=
  mkWorld (mkClient None None (make_chan 1) (make_chan 1) false Second)
          (mkIClient None [] onConnStart onConnStop)
          [mkCtx [] None] [] 0%Z [] [] false.

(** The value a finished call has returned. *)
Definition returned (w : World) (tid : nat) : option retval :=
  t ← threads w !! tid;
  match t_pc t with Ret v => Some v | _ => None end.

Definition pc (w : World) (tid : nat) : option prog := t_pc <$> threads w !! tid.

(** [is_go tid l]: the step [l] is one of goroutine [tid]. *)
Definition is_go (tid : nat) (l : label) : bool :=
  match l with Go t _ => bool_decide (t = tid) | Env _ => false end.

(** The events of goroutine [tid] in a piece of trace. *)
Definition events_of (tid : nat) (tr : list (nat * event)) : list event :=
  (filter (fun x => x.1 = tid) tr).*2.

(** ** One goroutine on its own

    [run n tid pick t w] lets goroutine [tid], in state [t], take [n] steps
    from world [w] and returns the world and the state it reaches; the entry
    of the goroutine in the world is written back by [set_thread]. *)
Definition set_thread (tid : nat) (t : thread) (w : World) : World :=
  set_threads (<[tid := t]> (threads w)) w.

Fixpoint run (n tid pick : nat) (t : thread) (w : World) : option (World * thread) :=
  match n with
  | 0 => Some (w, t)
  | S n =>
    if panicked w then None else
    '(w1, p) ← act tid pick (t_pc t) w;
    run n tid pick (resume t p) (set_panicked (is_panic p) w1)
  end.

(** ** What a goroutine does, whatever the others do

    [fresh w w'] is the part of the trace added between [w] and [w'].
    [behaves tid t es t'] says that goroutine [tid] can go from state [t] to
    state [t'] emitting the events [es], each of its actions being taken in
    some world: nothing is assumed about what happens between its steps. *)
Definition fresh (w w' : World) : list (nat * event) :=
  drop (length (trace w)) (trace w').

Inductive behaves (tid : nat) : thread -> list event -> thread -> Prop :=
| behaves_stop t : behaves tid t [] t
| behaves_step t pick w w1 p es t' :
    act tid pick (t_pc t) w = Some (w1, p) ->
    behaves tid (resume t p) es t' ->
    behaves tid t (events_of tid (fresh w w1) ++ es) t'.

(** The goroutine of [StartWithContext], blocked in its [select] on the done
    channel of context [cx]. *)
Definition supervisor_thread (cx : nat) : thread :=
  mkThread (supervisor_select cx) (Some supervisor).

(** Both signal channels have capacity one and hold at most one signal. *)
Definition chans_ok (w : World) : Prop :=
  forall ch, ch_cap (get_chan ch (client w)) = 1 /\
             length (ch_buf (get_chan ch (client w))) <= 1.

(** A connection handle and two schedules of the Transport used to exhibit
    worlds: a connection is established and lost. *)
Definition cn0 : Conn := mkConn "127.0.0.1:50000" "127.0.0.1:8999".

Definition up_down : list label := [Env (EnvConnStart cn0); Env EnvConnStop].

(** [hook_then_handler tid b ch handler es]: the events [es] of a goroutine
    are those of a bookkeeping hook (store [b], then try to send on [ch]),
    followed, once both have happened, by events of [handler]. *)
Definition hook_then_handler (tid : nat) (b : bool) (ch : chan_id) (handler : prog)
    (es : list event) : Prop :=
  (exists s, es `prefix_of` [EvStore b; EvTrySend ch s]) \/
  (exists s es_h t, es = [EvStore b; EvTrySend ch s] ++ es_h /\
                    behaves tid (mkThread handler None) es_h t).

(** A caller that registers handlers for both events, with the Transport
    connected. *)
Definition user_handler (n : nat) : Conn -> prog := fun _ => User n ;; return!.

Definition registering : list label :=
  [Env (EnvCall (SetOnConnStart (user_handler 1)));
   Env (EnvCall (SetOnConnStop (user_handler 2)));
   Env (EnvSetConn (Some cn0))].

(** The closure [handlerWrap] that [SetOnConnStart] and [SetOnConnStop]
    register: the package's hook, then the caller's handler. *)
Definition handlerWrap (hook handler : Conn -> prog) : Conn -> prog :=
  fun conn =>
    call! (hook conn) ;;
    call! (handler conn) ;;
    return!.

(** Schedules from [NewClient]: a caller starts the Manager under
    [context.Background()] and the loop goroutine (goroutine 1) reaches its
    [select]; then a caller calls [Stop]. *)
Definition started : list label :=
  [Env (EnvCall (StartWithContext Background))] ++ solo 0 0 3 ++ [Go 1 0].

Definition stopped : list label :=
  started ++ [Env (EnvCall Stop)] ++ solo 2 0 2.

(** The loop goroutine asleep in [time.Sleep] before it restarts the
    Transport. *)
Definition sleeping_thread (t : Z) : thread :=
  mkThread (Wake t (TRestart Continue)) (Some supervisor).

(** The loop goroutine at the top of an iteration. *)
Definition looping_thread : thread := mkThread supervisor (Some supervisor).

(** A world in which the supervisor loop waits at its [select], a connection
    has been established and then lost, and both hooks have run: a
    disconnect signal is pending and [Conn()] is not nil. *)
Definition disconnected : list label :=
  started ++ up_down ++ solo 2 0 2 ++ solo 3 0 2.

(** A world in which the supervisor loop waits at its [select], a
    connection has been established and its hook has run, so that a
    connect-success signal is pending, and the Transport has reported a dial
    error. *)
Definition dial_failed (e : dial_error) : list label :=
  started ++ [Env (EnvConnStart cn0)] ++ solo 2 0 2 ++ [Env (EnvDialErr e)].

Definition refused : dial_error := mkDialError "connection refused".

(** The events of the disconnect case of the supervisor loop, after its
    [select]. *)
Definition disconnect_body (l r : string) (d1 : Duration) (b : bool) (d2 : Duration)
    : list event :=
  [EvLog (LogDisconnect l r d1); EvTryRecv ConnectOkCh b; EvSleep d2;
   EvTransport OpRestart].

(** [in_order tid body es]: the events [es] of the loop goroutine are a
    beginning of [body] or [body] followed by events of further
    iterations of the loop. *)
Definition in_order (tid : nat) (body es : list event) : Prop :=
  es `prefix_of` body \/
  exists es' t, es = body ++ es' /\ behaves tid looping_thread es' t.

(** ** Loop goroutines

    A goroutine started by [go func() { for { ... } }()] is active until its
    function returns. *)
Definition loop_active (t : thread) : bool :=
  match t_loop t, t_pc t with
  | Some _, Ret _ => false
  | Some _, _ => true
  | None, _ => false
  end.

Definition active_loops (w : World) : nat :=
  length (List.filter loop_active (threads w)).

(** A second call of [StartWithContext] after [started]. *)
Definition start_again : list label :=
  Env (EnvCall (StartWithContext Background)) :: solo 2 0 3.

(** A caller derives a context from [context.Background()] (context 1) and
    calls [Connect] with it. *)
Definition connecting : list label :=
  [Env (EnvNewCtx Background); Env (EnvCall (Connect 1))].

(** A caller calls [ConnectWithTimeout] with three seconds. *)
Definition connecting_with_timeout : list label :=
  [Env (EnvCall (ConnectWithTimeout (3 * Second)%Z))].

(** ** The connected flag along a trace *)

(** The value of [c.connected] after the events [tr], when it was [b]
    before: that of the last [Store], if any. *)
Definition store_of (e : event) (b : bool) : bool :=
  match e with EvStore b' => b' | _ => b end.

Definition last_store (tr : list (nat * event)) (b : bool) : bool :=
  fold_left (fun b x => store_of x.2 b) tr b.

(** [Connect] waits (goroutine 0); a connection is established and its hook
    runs (goroutine 2); the connection is lost and its hook runs
    (goroutine 3); only then does [Connect] take the connect-success signal
    and return, and the caller asks [IsConnected] (goroutine 4). *)
Definition lost_before_return : list label :=
  [Env (EnvCall (Connect Background))] ++ solo 0 0 4 ++
  [Env (EnvConnStart cn0)] ++ solo 2 0 2 ++
  [Env EnvConnStop] ++ solo 3 0 2 ++
  [Go 0 1] ++
  [Env (EnvCall IsConnected); Go 4 0].

(** [Connect] waits (goroutine 0); a connection is established and its hook
    runs (goroutine 2); [Connect] takes the signal and returns, and the
    caller asks [IsConnected] (goroutine 3). *)
Definition connect_waiting : list label :=
  [Env (EnvCall (Connect Background))] ++ solo 0 0 4 ++ [Env (EnvConnStart cn0)].

Definition connect_succeeds : list label :=
  solo 2 0 2 ++ [Go 0 1] ++ [Env (EnvCall IsConnected)].

(** Two callers: one is about to call [StartWithContext], the other
    [Stop]. *)
Definition start_stop_calls : list label :=
  [Env (EnvCall (StartWithContext Background)); Env (EnvCall Stop)].

(** The loop waits at its [select], the Transport has reported a dial
    error, and a caller is about to set the reconnect interval to [d]. *)
Definition dial_failed_setting (e : dial_error) (d : Duration) : list label :=
  started ++ [Env (EnvDialErr e); Env (EnvCall (SetReconnectIntvl d))].

(** Two starts under [context.Background()]: the loop of the first
    (goroutine 1) waits on context 1, that of the second (goroutine 3) on
    context 2; then a caller is about to call [Stop]. *)
Definition started_twice : list label :=
  started ++ start_again ++ [Go 3 0; Env (EnvCall Stop)].

(** Two callers wait in [Connect] (goroutines 0 and 2) and one connection
    is established (its hook is goroutine 4). *)
Definition two_waiters : list label :=
  [Env (EnvCall (Connect Background))] ++ solo 0 0 4 ++
  [Env (EnvCall (Connect Background))] ++ solo 2 0 4 ++
  [Env (EnvConnStart cn0)] ++ solo 4 0 2.

(** [ConnectWithTimeout] waits at its [select] (goroutine 0). *)
Definition waiting_with_timeout : list label :=
  connecting_with_timeout ++ solo 0 0 4.

(** The loop of a first start sleeps after a dial error; meanwhile the
    Manager is started again, and the sleep ends. *)
Definition restarted_while_asleep : list label :=
  started ++ [Env (EnvDialErr refused)] ++ solo 1 2 5 ++ start_again ++
  [Env (EnvTick Second)].

(** ** How a step changes the world *)

Ltac act_cases H :=
  simpl in H; try discriminate H;
  repeat (simplify_option_eq; try case_match); simplify_option_eq.

Lemma case_fire_frame c w w1 v :
  case_fire c w = (w1, v) ->
  threads w1 = threads w /\ trace w1 = trace w /\ panicked w1 = panicked w /\
  now w1 = now w /\ ctxs w1 = ctxs w.
Proof. destruct c; intros H; simplify_eq/=; done. Qed.

(** An action leaves the goroutines in place, adding at most the one it
    starts, and adds at most one event, under its own name. *)
Lemma act_frame tid pick p w w1 p' :
  act tid pick p w = Some (w1, p') ->
  (threads w1 = threads w \/
   exists body, threads w1 = threads w ++ [mkThread body (Some body)]) /\
  (trace w1 = trace w \/ exists e, trace w1 = trace w ++ [(tid, e)]) /\
  panicked w1 = panicked w.
Proof.
  destruct p; intros H; act_cases H; eauto 10.
  match goal with H : case_fire _ _ = _ |- _ =>
    apply case_fire_frame in H as (-> & -> & -> & _) end.
  eauto 10.
Qed.

Lemma step_thread_inv tid pick w w' :
  step_thread tid pick w = Some w' ->
  panicked w = false /\
  exists t w1 p,
    threads w !! tid = Some t /\
    act tid pick (t_pc t) w = Some (w1, p) /\
    w' = set_panicked (is_panic p) (set_threads (<[tid := resume t p]> (threads w1)) w1).
Proof.
  unfold step_thread. destruct (panicked w) eqn:Hp; [done|].
  destruct (threads w !! tid) as [t|] eqn:Ht; [|done].
  cbn [mbind option_bind].
  destruct (act tid pick (t_pc t) w) as [[w1 p]|] eqn:Ha; [|done].
  cbn [mbind option_bind].
  intros [= <-].
  split; [reflexivity|]. exists t, w1, p.
  split; [reflexivity|]. split; [exact Ha|reflexivity].
Qed.

(** A step of the environment or of another goroutine does not touch
    goroutine [tid]. *)
Lemma step_other_thread l w w' tid t :
  step l w = Some w' -> is_go tid l = false ->
  threads w !! tid = Some t -> threads w' !! tid = Some t.
Proof.
  intros Hs Hl Ht. destruct l as [j pick|a]; simpl in *.
  - apply bool_decide_eq_false in Hl.
    apply step_thread_inv in Hs as (_ & tj & w1 & p & Hj & Ha & ->). simpl.
    rewrite list_lookup_insert_ne by done.
    apply act_frame in Ha as ([-> | [b ->]] & _); [done|].
    by apply lookup_app_l_Some.
  - unfold step_env in Hs. destruct (panicked w); [done|].
    destruct a; act_cases Hs; simpl; try done; by apply lookup_app_l_Some.
Qed.

(** Every step extends the trace, by events of the goroutine that steps. *)
Lemma step_trace l w w' :
  step l w = Some w' ->
  trace w' = trace w \/
  exists tid pick e, l = Go tid pick /\ trace w' = trace w ++ [(tid, e)].
Proof.
  intros Hs. destruct l as [j pick|a]; simpl in *.
  - apply step_thread_inv in Hs as (_ & tj & w1 & p & Hj & Ha & ->). simpl.
    apply act_frame in Ha as (_ & [-> | [e ->]] & _); eauto 10.
  - unfold step_env in Hs. destruct (panicked w); [done|].
    destruct a; act_cases Hs; simpl; eauto.
Qed.

Lemma step_not_panicked l w w' : step l w = Some w' -> panicked w = false.
Proof.
  destruct l; simpl.
  - intros H. by apply step_thread_inv in H as [? _].
  - unfold step_env. by destruct (panicked w).
Qed.

Lemma exec_app ls1 ls2 w :
  exec (ls1 ++ ls2) w = w1 ← exec ls1 w; exec ls2 w1.
Proof.
  revert w. induction ls1 as [|l ls1 IH]; intros w; simpl; [done|].
  destruct (step l w); simpl; auto.
Qed.

Lemma events_of_app tid tr1 tr2 :
  events_of tid (tr1 ++ tr2) = events_of tid tr1 ++ events_of tid tr2.
Proof. unfold events_of. by rewrite filter_app, fmap_app. Qed.

Lemma lookup_after_act tid pick w t w1 p :
  threads w !! tid = Some t ->
  act tid pick (t_pc t) w = Some (w1, p) ->
  <[tid := resume t p]> (threads w1) !! tid = Some (resume t p).
Proof.
  intros Ht Ha. apply list_lookup_insert_eq.
  apply lookup_lt_Some in Ht.
  apply act_frame in Ha as ([-> | [b ->]] & _); rewrite ?length_app; simpl; lia.
Qed.

(** ** Running one goroutine *)

Lemma case_fire_set_thread c w tid x :
  case_fire c (set_thread tid x w) =
  (set_thread tid x (case_fire c w).1, (case_fire c w).2).
Proof. destruct c; reflexivity. Qed.

Lemma act_set_thread tid pick p w x :
  tid < length (threads w) ->
  act tid pick p (set_thread tid x w) =
  (fun r => (set_thread tid x r.1, r.2)) <$> act tid pick p w.
Proof.
  intros Hlt. destruct p; try reflexivity; simpl.
  - destruct (chan_full _); reflexivity.
  - destruct (chan_ready _); reflexivity.
  - destruct (cases !! pick) as [c|]; [|reflexivity]. simpl.
    change (case_ready (set_thread tid x w) c) with (case_ready w c).
    destruct (case_ready w c); [|reflexivity].
    rewrite case_fire_set_thread. destruct (case_fire c w) as [w1 v]. reflexivity.
  - destruct (ctxs w !! parent); reflexivity.
  - destruct (ctxs w !! cx); reflexivity.
  - destruct (_ <=? _)%Z; reflexivity.
  - unfold set_thread; simpl. rewrite length_insert, insert_app_l by done. reflexivity.
Qed.

Lemma act_length tid pick p w w1 p' :
  act tid pick p w = Some (w1, p') -> length (threads w) <= length (threads w1).
Proof.
  intros Ha. apply act_frame in Ha as ([-> | [b ->]] & _); rewrite ?length_app; lia.
Qed.

Lemma run_set_thread n tid pick t w x :
  tid < length (threads w) ->
  run n tid pick t (set_thread tid x w) =
  (fun r => (set_thread tid x r.1, r.2)) <$> run n tid pick t w.
Proof.
  revert t w. induction n as [|n IH]; intros t w Hlt; [reflexivity|].
  cbn [run]. change (panicked (set_thread tid x w)) with (panicked w).
  destruct (panicked w); [reflexivity|].
  rewrite act_set_thread by done.
  destruct (act tid pick (t_pc t) w) as [[w1 p]|] eqn:Ha; [|reflexivity].
  cbn [fmap option_fmap option_map mbind option_bind fst snd].
  apply act_length in Ha.
  apply (IH (resume t p) (set_panicked (is_panic p) w1)). simpl. lia.
Qed.

(** The steps of a goroutine that runs alone are those of [run]. *)
Lemma exec_solo_run n tid pick w t :
  threads w !! tid = Some t ->
  exec (solo tid pick n) w =
  r ← run n tid pick t w; Some (set_thread tid r.2 r.1).
Proof.
  revert w t. induction n as [|n IH]; intros w t Ht.
  - simpl. unfold set_thread. rewrite list_insert_id by done. by destruct w.
  - change (solo tid pick (S n)) with (Go tid pick :: solo tid pick n).
    cbn [exec step run]. unfold step_thread. rewrite Ht.
    destruct (panicked w) eqn:Hp; [reflexivity|]. cbn [mbind option_bind].
    destruct (act tid pick (t_pc t) w) as [[w1 p]|] eqn:Ha; [|reflexivity].
    cbn [mbind option_bind].
    pose proof (lookup_after_act _ _ _ _ _ _ Ht Ha) as Hl.
    rewrite (IH _ (resume t p)) by exact Hl.
    change (set_panicked (is_panic p) (set_threads (<[tid:=resume t p]> (threads w1)) w1))
      with (set_thread tid (resume t p) (set_panicked (is_panic p) w1)).
    rewrite run_set_thread
      by (apply lookup_lt_Some in Ht; apply act_length in Ha; simpl; lia).
    destruct (run n tid pick (resume t p) (set_panicked (is_panic p) w1)) as [[w2 t2]|];
      [|reflexivity].
    simpl. unfold set_thread. simpl. by rewrite list_insert_insert_eq.
Qed.

Lemma onConnStart_run w tid cn lp :
  panicked w = false ->
  threads w !! tid = Some (mkThread (onConnStart cn) lp) ->
  exists w',
    exec (solo tid 0 2) w = Some w' /\
    returned w' tid = Some RUnit /\
    panicked w' = false /\
    c_connected (client w') = true /\
    c_connectOkCh (client w') =
      (if chan_full (c_connectOkCh (client w)) then c_connectOkCh (client w)
       else chan_push (c_connectOkCh (client w))) /\
    trace w' = trace w ++
      [(tid, EvStore true);
       (tid, EvTrySend ConnectOkCh (negb (chan_full (c_connectOkCh (client w)))))].
Proof.
  intros Hp Ht.
  pose proof (lookup_lt_Some _ _ _ Ht) as Hlt.
  rewrite (exec_solo_run _ _ _ _ _ Ht).
  destruct w as [c ic cs ts n thr tr pk]; simpl in *; subst pk.
  unfold returned. simpl.
  destruct (chan_full (c_connectOkCh c)); simpl; eexists; (split; [reflexivity|]); simpl;
    rewrite list_lookup_insert_eq by done; simpl; rewrite <- ?app_assoc; auto.
Qed.

(** ** Traces only grow *)

Lemma step_trace_app l w w' :
  step l w = Some w' -> exists tr, trace w' = trace w ++ tr.
Proof.
  intros H. apply step_trace in H as [-> | (t & pk & e & _ & ->)]; [exists []|eauto].
  by rewrite app_nil_r.
Qed.

Lemma exec_trace_app ls w w' :
  exec ls w = Some w' -> exists tr, trace w' = trace w ++ tr.
Proof.
  revert w. induction ls as [|l ls IH]; intros w H; simpl in H.
  - injection H as <-. exists []. by rewrite app_nil_r.
  - destruct (step l w) as [w1|] eqn:Hs; [|done]. simpl in H.
    apply step_trace_app in Hs as [tr1 H1]. apply IH in H as [tr2 H2].
    exists (tr1 ++ tr2). by rewrite H2, H1, app_assoc.
Qed.


Lemma fresh_eq w w' tr : trace w' = trace w ++ tr -> fresh w w' = tr.
Proof. intros H. unfold fresh. by rewrite H, drop_app_length. Qed.

Lemma fresh_trans w1 w2 w3 :
  (exists tr, trace w2 = trace w1 ++ tr) ->
  (exists tr, trace w3 = trace w2 ++ tr) ->
  fresh w1 w3 = fresh w1 w2 ++ fresh w2 w3.
Proof.
  intros [a Ha] [b Hb].
  rewrite (fresh_eq w1 w2 a), (fresh_eq w2 w3 b) by done.
  apply fresh_eq. by rewrite Hb, Ha, app_assoc.
Qed.

Lemma exec_fresh_cons l ls w w1 w' :
  step l w = Some w1 -> exec ls w1 = Some w' ->
  fresh w w' = fresh w w1 ++ fresh w1 w'.
Proof.
  intros Hs He. apply fresh_trans; [by eapply step_trace_app|by eapply exec_trace_app].
Qed.

(** A step of another goroutine, or of the environment, adds no event of
    goroutine [tid]. *)
Lemma step_other_events l w w' tid :
  step l w = Some w' -> is_go tid l = false -> events_of tid (fresh w w') = [].
Proof.
  intros Hs Hl. destruct (step_trace _ _ _ Hs) as [H | (t & pk & e & -> & H)].
  - rewrite (fresh_eq w w' []); [done|by rewrite app_nil_r].
  - rewrite (fresh_eq w w' _ H). simpl in Hl. apply bool_decide_eq_false in Hl.
    unfold events_of. rewrite filter_cons_False; [done|]. simpl. done.
Qed.

(** Along any execution, each goroutine behaves as its program says. *)
Lemma exec_behaves ls w w' tid t :
  exec ls w = Some w' ->
  threads w !! tid = Some t ->
  exists t', threads w' !! tid = Some t' /\
             behaves tid t (events_of tid (fresh w w')) t'.
Proof.
  revert w t. induction ls as [|l ls IH]; intros w t He Ht; simpl in He.
  - injection He as <-. exists t. split; [done|].
    rewrite (fresh_eq w w []); [constructor|by rewrite app_nil_r].
  - destruct (step l w) as [w1|] eqn:Hs; [|done]. simpl in He.
    rewrite (exec_fresh_cons _ _ _ _ _ Hs He), events_of_app.
    destruct (is_go tid l) eqn:Hl.
    + destruct l as [j pick|]; [|done]. simpl in Hl. apply bool_decide_eq_true in Hl as ->.
      pose proof Hs as Hs'. simpl in Hs'.
      apply step_thread_inv in Hs' as (_ & t0 & w0 & p & Ht0 & Ha & ->).
      rewrite Ht in Ht0. injection Ht0 as <-.
      destruct (IH _ (resume t p) He) as (t' & Ht' & Hb).
      { simpl. eapply lookup_after_act; eauto. }
      exists t'. split; [done|].
      change (fresh w _) with (fresh w w0).
      econstructor; eauto.
    + rewrite (step_other_events _ _ _ _ Hs Hl). simpl.
      eapply IH; eauto. eapply step_other_thread; eauto.
Qed.

Lemma events_of_own tid e : events_of tid [(tid, e)] = [e].
Proof. unfold events_of. rewrite filter_cons_True by done. reflexivity. Qed.

Lemma fresh_refl w : fresh w w = [].
Proof. apply fresh_eq. by rewrite app_nil_r. Qed.

Lemma fresh_emit w tid e w0 :
  trace w0 = trace w -> fresh w (emit tid e w0) = [(tid, e)].
Proof. intros H. apply fresh_eq. simpl. by rewrite H. Qed.

Lemma fresh_same w w0 : trace w0 = trace w -> fresh w w0 = [].
Proof. intros H. apply fresh_eq. by rewrite H, app_nil_r. Qed.

Lemma case_fire_trace c w w1 v : case_fire c w = (w1, v) -> trace w1 = trace w.
Proof. intros H. by apply case_fire_frame in H as (_ & ? & _). Qed.

(** Case analysis on the outcome of one action, along the tests the action
    itself makes; the continuation is left alone. *)
Ltac act_split Ha :=
  lazymatch type of Ha with
  | Some _ = Some _ => first [injection Ha as <- <- | injection Ha as <-]
  | None = Some _ => discriminate Ha
  | (if ?b then _ else _) = Some _ =>
    let E := fresh "E" in destruct b eqn:E; act_split Ha
  | (let '(_, _) := ?x in _) = Some _ =>
    let E := fresh "E" in let Ht := fresh "Htr" in
    destruct x eqn:E; try pose proof (case_fire_trace _ _ _ _ E) as Ht; act_split Ha
  | (?m ≫= _) = Some _ =>
    let E := fresh "E" in
    destruct m eqn:E; cbn [mbind option_bind] in Ha; act_split Ha
  | (match ?x with _ => _ end) = Some _ =>
    let E := fresh "E" in destruct x eqn:E; act_split Ha
  end.

Ltac fresh_simpl :=
  rewrite ?fresh_refl, ?fresh_emit, ?fresh_same, ?events_of_own in *
    by (simpl; congruence).

(** Taking apart the behaviour of a goroutine whose program is known. *)
Ltac behaves_inv H :=
  let pk := fresh "pick" in let w := fresh "w" in let w1 := fresh "w" in
  let p := fresh "p" in let es := fresh "es" in
  let Ha := fresh "Ha" in let Hb := fresh "Hb" in
  inversion H as [|? pk w w1 p es ? Ha Hb]; clear H; subst;
  [| cbn [t_pc act] in Ha; act_split Ha; fresh_simpl;
     cbn [resume t_loop t_pc] in Hb ].

Lemma behaves_cancel_branch tid cx es t' :
  behaves tid (mkThread (supervisor_select cx) (Some supervisor)) es t' ->
  hd_error es = Some (EvSelect (CaseDone cx) None) ->
  es = [EvSelect (CaseDone cx) None] \/
  es = [EvSelect (CaseDone cx) None; EvTransport OpStop].
Proof.
  intros Hb Hhd. unfold supervisor_select in Hb.
  behaves_inv Hb; [done|].
  simpl in Hhd. injection Hhd as -> ->.
  destruct pick as [|[|[|]]]; simplify_eq/=.
  behaves_inv Hb0; [auto|]. simpl.
  destruct (conn (iclient w)); simpl in *.
  - behaves_inv Hb; [auto|]. behaves_inv Hb0; auto.
  - behaves_inv Hb; auto.
Qed.

(** ** Invariants of every execution *)

Lemma exec_invariant (P : World -> Prop) :
  (forall l w w', P w -> step l w = Some w' -> P w') ->
  forall ls w w', P w -> exec ls w = Some w' -> P w'.
Proof.
  intros Hstep ls. induction ls as [|l ls IH]; intros w w' HP He; simpl in He.
  - by injection He as <-.
  - destruct (step l w) as [w1|] eqn:Hs; [|done]. eauto.
Qed.

Lemma exec_not_panicked l ls w w' : exec (l :: ls) w = Some w' -> panicked w = false.
Proof.
  simpl. destruct (step l w) eqn:Hs; [|done]. intros _. by eapply step_not_panicked.
Qed.

Lemma chan_push_ok c :
  ch_cap c = 1 -> chan_full c = false ->
  ch_cap (chan_push c) = 1 /\ length (ch_buf (chan_push c)) <= 1.
Proof.
  unfold chan_full, chan_push. intros -> Hf. apply Nat.leb_gt in Hf. simpl.
  rewrite length_app. simpl. split; [done|lia].
Qed.

Lemma chan_pop_ok c :
  ch_cap c = 1 -> length (ch_buf c) <= 1 ->
  ch_cap (chan_pop c) = 1 /\ length (ch_buf (chan_pop c)) <= 1.
Proof.
  unfold chan_pop. intros -> Hl. simpl. split; [done|]. destruct (ch_buf c); simpl in *; lia.
Qed.

Lemma get_set_chan ch ch' v c :
  get_chan ch (set_chan ch' v c) = if decide (ch = ch') then v else get_chan ch c.
Proof. destruct ch, ch'; reflexivity. Qed.

Lemma case_fire_chans_ok c w w1 v :
  case_fire c w = (w1, v) -> chans_ok w -> chans_ok w1.
Proof.
  intros H Hok ch'. destruct c; simplify_eq/=; try apply Hok.
  rewrite get_set_chan. destruct (decide (ch' = ch)) as [->|]; [|apply Hok].
  apply chan_pop_ok; apply Hok.
Qed.

Lemma act_chans_ok tid pick p w w1 p' :
  act tid pick p w = Some (w1, p') -> chans_ok w -> chans_ok w1.
Proof.
  intros Ha Hok. destruct p; cbn [act] in Ha; act_split Ha; try exact Hok;
    try (intros ch'; simpl; rewrite ?get_set_chan;
         try destruct (decide (ch' = ch)) as [->|];
         first [apply Hok | apply chan_push_ok; [apply Hok|done]
               | apply chan_pop_ok; apply Hok | by destruct ch']).
  match goal with E : case_fire _ _ = _ |- _ =>
    exact (case_fire_chans_ok _ _ _ _ E Hok) end.
Qed.

Lemma step_chans_ok l w w' : chans_ok w -> step l w = Some w' -> chans_ok w'.
Proof.
  intros Hok Hs. destruct l as [tid pick|a]; simpl in Hs.
  - apply step_thread_inv in Hs as (_ & t & w1 & p & _ & Ha & ->).
    eapply act_chans_ok in Ha; eauto.
  - unfold step_env in Hs. destruct (panicked w); [done|].
    destruct a; act_split Hs; exact Hok.
Qed.

Lemma NewClient_chans_ok host port : chans_ok (NewClient host port).
Proof. intros []; simpl; auto. Qed.

Lemma reachable_chans_ok ls host port w :
  exec ls (NewClient host port) = Some w -> chans_ok w.
Proof.
  apply (exec_invariant chans_ok); [intros; eapply step_chans_ok; eauto|].
  apply NewClient_chans_ok.
Qed.

(** ** The lifecycle hooks *)

(** Both hooks are a store followed by a non-blocking send. *)
Lemma store_send_run w tid b ch lp :
  panicked w = false ->
  threads w !! tid = Some (mkThread (StoreConnected b (TrySend ch (Ret RUnit))) lp) ->
  exists w',
    exec (solo tid 0 2) w = Some w' /\
    returned w' tid = Some RUnit /\
    panicked w' = false /\
    c_connected (client w') = b /\
    (forall ch', get_chan ch' (client w') =
       if decide (ch' = ch)
       then (if chan_full (get_chan ch (client w)) then get_chan ch (client w)
             else chan_push (get_chan ch (client w)))
       else get_chan ch' (client w)) /\
    fresh w w' =
      [(tid, EvStore b);
       (tid, EvTrySend ch (negb (chan_full (get_chan ch (client w)))))].
Proof.
  intros Hp Ht.
  pose proof (lookup_lt_Some _ _ _ Ht) as Hlt.
  rewrite (exec_solo_run _ _ _ _ _ Ht).
  destruct w as [c ic cs ts n thr tr pk]; simpl in *; subst pk.
  unfold returned, fresh. simpl.
  replace (get_chan ch (set_connected b c)) with (get_chan ch c) by (by destruct ch).
  destruct (chan_full (get_chan ch c)) eqn:Hf; simpl; eexists; (split; [reflexivity|]); simpl;
    rewrite list_lookup_insert_eq by done; simpl;
    rewrite <- ?app_assoc, drop_app_length; split_and!; try done;
    try (by destruct ch);
    intros ch'; rewrite ?get_set_chan; destruct (decide (ch' = ch)) as [->|]; try done;
    by destruct ch'.
Qed.

Lemma chans_ok_full w ch :
  chans_ok w ->
  chan_full (get_chan ch (client w)) = chan_ready (get_chan ch (client w)).
Proof.
  intros Hok. destruct (Hok ch) as [Hc Hl]. unfold chan_full, chan_ready. rewrite Hc.
  destruct (get_chan ch (client w)) as [cap [|[] [|]]]; simpl in *; try done; lia.
Qed.

Lemma chans_ok_after_send w ch :
  chans_ok w ->
  ch_buf (if chan_full (get_chan ch (client w)) then get_chan ch (client w)
          else chan_push (get_chan ch (client w))) = [()].
Proof.
  intros Hok. destruct (Hok ch) as [Hc Hl]. unfold chan_full, chan_push. rewrite Hc.
  destruct (get_chan ch (client w)) as [cap [|[] [|]]]; simpl in *; try done; lia.
Qed.

(** C7: in every world reached from [NewClient] each signal channel holds at
    most one signal; the connection-established hook stores [true] in
    [connected] and then makes a non-blocking send on [connectOkCh], which is
    dropped exactly when a signal is pending, and the connection-lost hook
    stores [false] and then does the same on [disconnectCh]; afterwards
    exactly one signal is pending on that channel, and no action of either
    hook can block. *)
Theorem C7_lifecycle_hooks ls host port w t1 t2 cn1 cn2 lp1 lp2 :
  exec ls (NewClient host port) = Some w ->
  panicked w = false ->
  threads w !! t1 = Some (mkThread (onConnStart cn1) lp1) ->
  threads w !! t2 = Some (mkThread (onConnStop cn2) lp2) ->
  (forall ch, length (ch_buf (get_chan ch (client w))) <= 1) /\
  (exists w',
     exec (solo t1 0 2) w = Some w' /\
     returned w' t1 = Some RUnit /\
     fresh w w' =
       [(t1, EvStore true);
        (t1, EvTrySend ConnectOkCh (negb (chan_ready (c_connectOkCh (client w)))))] /\
     c_connected (client w') = true /\
     ch_buf (c_connectOkCh (client w')) = [()] /\
     c_disconnectCh (client w') = c_disconnectCh (client w)) /\
  (exists w',
     exec (solo t2 0 2) w = Some w' /\
     returned w' t2 = Some RUnit /\
     fresh w w' =
       [(t2, EvStore false);
        (t2, EvTrySend DisconnectCh (negb (chan_ready (c_disconnectCh (client w)))))] /\
     c_connected (client w') = false /\
     ch_buf (c_disconnectCh (client w')) = [()] /\
     c_connectOkCh (client w') = c_connectOkCh (client w)) /\
  (forall w0 tid pick b ch k lp,
     panicked w0 = false ->
     (threads w0 !! tid = Some (mkThread (StoreConnected b k) lp) \/
      threads w0 !! tid = Some (mkThread (TrySend ch k) lp)) ->
     is_Some (step (Go tid pick) w0)).
Proof.
  intros He Hp H1 H2. pose proof (reachable_chans_ok _ _ _ _ He) as Hok.
  split; [intros ch; apply Hok|]. split; [|split].
  - destruct (store_send_run w t1 true ConnectOkCh lp1 Hp H1)
      as (w' & Hr & Hret & _ & Hc & Hch & Hfr).
    exists w'. rewrite Hfr, (chans_ok_full w ConnectOkCh Hok). repeat split; try done.
    + change (c_connectOkCh (client w')) with (get_chan ConnectOkCh (client w')).
      rewrite Hch. simpl. apply (chans_ok_after_send w ConnectOkCh Hok).
    + apply (Hch DisconnectCh).
  - destruct (store_send_run w t2 false DisconnectCh lp2 Hp H2)
      as (w' & Hr & Hret & _ & Hc & Hch & Hfr).
    exists w'. rewrite Hfr, (chans_ok_full w DisconnectCh Hok). repeat split; try done.
    + change (c_disconnectCh (client w')) with (get_chan DisconnectCh (client w')).
      rewrite Hch. simpl. apply (chans_ok_after_send w DisconnectCh Hok).
    + apply (Hch ConnectOkCh).
  - intros w0 tid pick b ch k lp Hp0 [Ht|Ht]; simpl; unfold step_thread;
      rewrite Hp0, Ht; simpl; [eauto|]. destruct (chan_full _); simpl; eauto.
Qed.

Lemma C7_lifecycle_hooks_witness :
  exists w,
    exec up_down (NewClient "localhost" 8080) = Some w /\
    panicked w = false /\
    threads w !! 0 = Some (mkThread (onConnStart cn0) None) /\
    threads w !! 1 = Some (mkThread (onConnStop cn0) None) /\
    forall ch, length (ch_buf (get_chan ch (client w))) <= 1.
Proof.
  eexists. split; [reflexivity|]. split; [reflexivity|].
  split; [reflexivity|]. split; [reflexivity|].
  eapply (C7_lifecycle_hooks up_down "localhost" 8080 _ 0 1 cn0 cn0 None None);
    reflexivity.
Defined.

(** ** Calls *)

Lemma resume_None p q : resume (mkThread p None) q = mkThread q None.
Proof. by destruct q. Qed.

(** An action of [Call p f] is an action of [p], or of [f v] once [p] has
    returned [v]. *)
Lemma act_Call tid pick p f w w1 q :
  act tid pick (Call p f) w = Some (w1, q) ->
  (exists v, p = Ret v /\ act tid pick (f v) w = Some (w1, q)) \/
  (exists p1, act tid pick p w = Some (w1, p1) /\ q = Call p1 f).
Proof.
  intros Ha. destruct p; cbn [Call] in Ha; try (left; eexists; split; [reflexivity|exact Ha]);
    right; cbn [act] in Ha |- *; act_split Ha;
    eexists;
    (split;
     [cbn [mbind option_bind];
      repeat (match goal with E : _ = _ |- _ => rewrite E end; cbn [mbind option_bind]);
      reflexivity
     |reflexivity]).
Qed.

(** The events of a call come before the events of what follows it. *)
Lemma behaves_Call tid p f es t' :
  behaves tid (mkThread (Call p f) None) es t' ->
  (exists p', t' = mkThread (Call p' f) None /\
              behaves tid (mkThread p None) es (mkThread p' None)) \/
  (exists es1 es2 v, es = es1 ++ es2 /\
              behaves tid (mkThread p None) es1 (mkThread (Ret v) None) /\
              behaves tid (mkThread (f v) None) es2 t').
Proof.
  intros Hb. remember (mkThread (Call p f) None) as t eqn:Et. revert p Et.
  induction Hb as [t|t pick w w1 q es t' Ha Hb IH]; intros p ->.
  - left. exists p. split; [done|constructor].
  - cbn [t_pc] in Ha. rewrite resume_None in Hb, IH.
    apply act_Call in Ha as [(v & -> & Ha) | (p1 & Ha & ->)].
    + right. exists [], (events_of tid (fresh w w1) ++ es), v.
      split; [done|]. split; [constructor|].
      econstructor; [exact Ha|]. by rewrite resume_None.
    + destruct (IH p1 eq_refl) as [(p' & -> & Hp) | (es1 & es2 & v & -> & H1 & H2)].
      * left. exists p'. split; [done|].
        econstructor; [exact Ha|]. by rewrite resume_None.
      * right. exists (events_of tid (fresh w w1) ++ es1), es2, v.
        split; [by rewrite app_assoc|]. split; [|done].
        econstructor; [exact Ha|]. by rewrite resume_None.
Qed.

(** ** Callback composition *)

Lemma store_send_behaves tid b ch lp es t' :
  behaves tid (mkThread (StoreConnected b (TrySend ch (Ret RUnit))) lp) es t' ->
  (es = [] /\ t' = mkThread (StoreConnected b (TrySend ch (Ret RUnit))) lp) \/
  (es = [EvStore b] /\ t' = mkThread (TrySend ch (Ret RUnit)) lp) \/
  (exists s, es = [EvStore b; EvTrySend ch s] /\ t' = mkThread (Ret RUnit) lp).
Proof.
  intros Hb. behaves_inv Hb; [auto|].
  behaves_inv Hb0; [auto|..]; behaves_inv Hb; eauto 6.
Qed.

Lemma behaves_Ret tid v lp es t' :
  behaves tid (mkThread (Ret v) lp) es t' -> es = [] /\ t' = mkThread (Ret v) lp.
Proof. intros Hb. behaves_inv Hb; auto. Qed.

Lemma wrapped_hook_behaves tid b ch handler es t' :
  behaves tid
    (mkThread (Call (StoreConnected b (TrySend ch (Ret RUnit)))
                    (fun _ => Call handler (fun _ => Ret RUnit))) None) es t' ->
  hook_then_handler tid b ch handler es.
Proof.
  intros Hb. apply behaves_Call in Hb as [(p' & -> & Hb) | (es1 & es2 & v & -> & H1 & H2)].
  - left. apply store_send_behaves in Hb as [[-> _] | [[-> _] | (s & -> & _)]].
    + exists true. apply prefix_nil.
    + exists true. by apply prefix_cons, prefix_nil.
    + by exists s.
  - apply store_send_behaves in H1 as [[_ [=]] | [[_ [=]] | (s & -> & _)]].
    right. exists s.
    apply behaves_Call in H2 as [(p' & -> & Hb) | (e1 & e2 & v' & -> & H3 & H4)].
    + eauto.
    + apply behaves_Ret in H4 as [-> _]. rewrite app_nil_r. eauto.
Qed.

Lemma events_of_other tid t e : t <> tid -> events_of tid [(t, e)] = [].
Proof. intros H. unfold events_of. by rewrite filter_cons_False. Qed.

Lemma hook_event_behaves ls w0 w' l hook handler b ch cn :
  hook = handlerWrap (fun _ => StoreConnected b (TrySend ch (Ret RUnit))) handler ->
  step l w0 = Some (spawn (hook cn) (set_iclient (set_conn (Some cn) (iclient w0)) w0)) ->
  exec (l :: ls) w0 = Some w' ->
  hook_then_handler (length (threads w0)) b ch (handler cn)
    (events_of (length (threads w0)) (fresh w0 w')).
Proof.
  intros -> Hs He. cbn [exec] in He. rewrite Hs in He. cbn [mbind option_bind] in He.
  match type of He with exec ls ?x = _ => set (wa := x) in * end.
  destruct (exec_behaves ls wa w' (length (threads w0))
              (mkThread (Call (StoreConnected b (TrySend ch (Ret RUnit)))
                 (fun _ => Call (handler cn) (fun _ => Ret RUnit))) None) He)
    as (t' & _ & Hb).
  { subst wa. simpl. rewrite lookup_app_r by done. by rewrite Nat.sub_diag. }
  rewrite (fresh_trans w0 wa w'); [|subst wa; exists []; simpl; by rewrite app_nil_r
                                   |by eapply exec_trace_app].
  rewrite events_of_app, (fresh_same w0 wa) by done.
  exact (wrapped_hook_behaves _ _ _ _ _ _ Hb).
Qed.

(** C8: [SetOnConnStart] (resp. [SetOnConnStop]) registers with the Transport
    the package's own hook followed by the caller's handler, whatever was
    registered before; and while that registration stands, the goroutine on
    which the Transport reports a connection (resp. a loss) runs the
    package's hook first, storing the flag and signalling, and the caller's
    handler after it, under every interleaving. *)
Theorem C8_handler_composition w tid1 tid2 lp1 lp2 h1 h2 wa wb :
  threads w !! tid1 = Some (mkThread (SetOnConnStart h1) lp1) ->
  threads w !! tid2 = Some (mkThread (SetOnConnStop h2) lp2) ->
  step (Go tid1 0) w = Some wa ->
  step (Go tid2 0) w = Some wb ->
  (onConnStartHook (iclient wa) = handlerWrap onConnStart h1 /\
   returned wa tid1 = Some RUnit) /\
  (onConnStopHook (iclient wb) = handlerWrap onConnStop h2 /\
   returned wb tid2 = Some RUnit) /\
  (forall w0 cn ls w',
     onConnStartHook (iclient w0) = handlerWrap onConnStart h1 ->
     exec (Env (EnvConnStart cn) :: ls) w0 = Some w' ->
     hook_then_handler (length (threads w0)) true ConnectOkCh (h1 cn)
       (events_of (length (threads w0)) (fresh w0 w'))) /\
  (forall w0 cn ls w',
     onConnStopHook (iclient w0) = handlerWrap onConnStop h2 ->
     conn (iclient w0) = Some cn ->
     exec (Env EnvConnStop :: ls) w0 = Some w' ->
     hook_then_handler (length (threads w0)) false DisconnectCh (h2 cn)
       (events_of (length (threads w0)) (fresh w0 w'))).
Proof.
  intros Ht1 Ht2 Ha Hb.
  pose proof (lookup_lt_Some _ _ _ Ht1) as Hlt1.
  pose proof (lookup_lt_Some _ _ _ Ht2) as Hlt2.
  simpl in Ha, Hb. unfold step_thread in Ha, Hb. rewrite Ht1 in Ha. rewrite Ht2 in Hb.
  destruct (panicked w) eqn:Hp; [done|]. simpl in Ha, Hb.
  injection Ha as <-. injection Hb as <-.
  split; [unfold returned; simpl; by rewrite list_lookup_insert_eq|].
  split; [unfold returned; simpl; by rewrite list_lookup_insert_eq|].
  split.
  - intros w0 cn ls w' Hh He.
    pose proof (exec_not_panicked _ _ _ _ He) as Hp0.
    eapply (hook_event_behaves ls w0 w' _ (onConnStartHook (iclient w0))); [exact Hh| |exact He].
    simpl. unfold step_env. by rewrite Hp0.
  - intros w0 cn ls w' Hh Hcn He.
    pose proof (exec_not_panicked _ _ _ _ He) as Hp0.
    cbn [exec step] in He. unfold step_env in He. rewrite Hp0, Hcn in He.
    cbn [mbind option_bind] in He.
    match type of He with exec ls ?x = _ => set (wa := x) in * end.
    destruct (exec_behaves ls wa w' (length (threads w0))
                (mkThread (Call (onConnStop cn)
                   (fun _ => Call (h2 cn) (fun _ => Ret RUnit))) None) He)
      as (t' & _ & Hb).
    { subst wa. rewrite Hh. simpl. rewrite lookup_app_r by done. by rewrite Nat.sub_diag. }
    rewrite (fresh_trans w0 wa w'); [|subst wa; exists []; simpl; by rewrite app_nil_r
                                     |by eapply exec_trace_app].
    rewrite events_of_app, (fresh_same w0 wa) by done.
    exact (wrapped_hook_behaves _ _ _ _ _ _ Hb).
Qed.

Lemma C8_handler_composition_witness :
  exists w wa wb,
    exec registering (NewClient "localhost" 8080) = Some w /\
    threads w !! 0 = Some (mkThread (SetOnConnStart (user_handler 1)) None) /\
    threads w !! 1 = Some (mkThread (SetOnConnStop (user_handler 2)) None) /\
    step (Go 0 0) w = Some wa /\
    step (Go 1 0) w = Some wb /\
    onConnStartHook (iclient wa) = handlerWrap onConnStart (user_handler 1) /\
    onConnStopHook (iclient wb) = handlerWrap onConnStop (user_handler 2).
Proof.
  pose (w := default (NewClient "" 0) (exec registering (NewClient "localhost" 8080))).
  pose (wa := default w (step (Go 0 0) w)).
  pose (wb := default w (step (Go 1 0) w)).
  exists w, wa, wb.
  split; [reflexivity|]. split; [reflexivity|]. split; [reflexivity|].
  split; [reflexivity|]. split; [reflexivity|].
  destruct (C8_handler_composition w 0 1 None None (user_handler 1) (user_handler 2) wa wb
              eq_refl eq_refl eq_refl eq_refl) as (Ha & Hb & _).
  split; [exact (proj1 Ha)|exact (proj1 Hb)].
Defined.

(** ** The supervisor loop: cancellation *)

Lemma cancel_branch_run w tid cx e :
  panicked w = false ->
  threads w !! tid = Some (supervisor_thread cx) ->
  ctx_err w cx = Some e ->
  exists w1,
    exec (solo tid 0 (if conn (iclient w) is Some _ then 3 else 2)) w = Some w1 /\
    returned w1 tid = Some RUnit /\
    panicked w1 = false /\
    fresh w w1 =
      (tid, EvSelect (CaseDone cx) None) ::
      (if conn (iclient w) is Some _ then [(tid, EvTransport OpStop)] else []).
Proof.
  intros Hp Ht Hc.
  pose proof (lookup_lt_Some _ _ _ Ht) as Hlt.
  rewrite (exec_solo_run _ _ _ _ _ Ht).
  destruct w as [c ic cs ts n thr tr pk]; simpl in *; subst pk.
  unfold returned, fresh. simpl in *.
  destruct (conn ic) eqn:Ec; simpl; rewrite Hc; simpl; rewrite ?Ec; simpl;
    eexists; (split; [reflexivity|]); simpl;
    rewrite list_lookup_insert_eq by done; simpl;
    rewrite <- ?app_assoc, drop_app_length; done.
Qed.

(** When the rest of a program depends on a value that was read, take the
    cases of that value. *)
Ltac behaves_case :=
  match goal with
  | H : behaves _ (resume _ (match ?c with _ => _ end)) _ _ |- _ =>
    destruct c; cbn [resume t_loop t_pc] in H
  end.

Lemma behaves_cancel tid cx pick w w1 p es t' :
  act tid pick (supervisor_select cx) w = Some (w1, p) ->
  pick = 0 ->
  behaves tid (resume (supervisor_thread cx) p) es t' ->
  (es = [] \/ es = [EvTransport OpStop]) /\
  forall v, t_pc t' = Ret v -> v = RUnit.
Proof.
  intros Ha -> Hb. unfold supervisor_select in Ha. cbn [act] in Ha. act_split Ha.
  simpl in Hb.
  behaves_inv Hb; [split; [auto|done]|].
  behaves_case.
  - behaves_inv Hb0; [split; [auto|done]|]. behaves_inv Hb; split; auto; by intros ? [= <-].
  - behaves_inv Hb0; split; auto; by intros ? [= <-].
Qed.

(** C2: when the [select] of the supervisor loop proceeds with its first
    case, the scope is cancelled; whatever the other goroutines and the
    Transport do from then on, the loop goroutine at most calls [Stop] on
    the Transport, once, and never restarts it nor selects again; run on its
    own it calls [Stop] exactly when [Conn()] is not nil and returns; and
    once it has returned it takes no step and emits nothing. *)
Theorem C2_cancellation_terminal w tid cx ls w' :
  threads w !! tid = Some (supervisor_thread cx) ->
  exec (Go tid 0 :: ls) w = Some w' ->
  (exists e, ctx_err w cx = Some e) /\
  (events_of tid (fresh w w') = [EvSelect (CaseDone cx) None] \/
   events_of tid (fresh w w') = [EvSelect (CaseDone cx) None; EvTransport OpStop]) /\
  (exists w1,
     exec (solo tid 0 (if conn (iclient w) is Some _ then 3 else 2)) w = Some w1 /\
     returned w1 tid = Some RUnit /\
     fresh w w1 =
       (tid, EvSelect (CaseDone cx) None) ::
       (if conn (iclient w) is Some _ then [(tid, EvTransport OpStop)] else [])) /\
  (forall v, returned w' tid = Some v ->
     v = RUnit /\
     forall ls2 w2, exec ls2 w' = Some w2 ->
       events_of tid (fresh w' w2) = [] /\ returned w2 tid = Some RUnit /\
       forall pick, step (Go tid pick) w2 = None).
Proof.
  intros Ht He.
  pose proof (exec_not_panicked _ _ _ _ He) as Hp.
  assert (exists e, ctx_err w cx = Some e) as [e Hc].
  { cbn [exec step] in He. unfold step_thread in He. rewrite Hp, Ht in He.
    cbn -[exec] in He. destruct (ctx_err w cx); [eauto|done]. }
  split; [eauto|].
  destruct (exec_behaves _ _ _ _ _ He Ht) as (t' & Ht' & Hb).
  assert ((events_of tid (fresh w w') = [EvSelect (CaseDone cx) None] \/
           events_of tid (fresh w w') = [EvSelect (CaseDone cx) None; EvTransport OpStop]) /\
          forall v, t_pc t' = Ret v -> v = RUnit) as [Hev Hret].
  { cbn [exec] in He. destruct (step (Go tid 0) w) as [wa|] eqn:Hs; [|done].
    cbn [mbind option_bind] in He.
    pose proof Hs as Hs'. simpl in Hs'.
    apply step_thread_inv in Hs' as (_ & t0 & w0 & p & Ht0 & Ha & ->).
    rewrite Ht in Ht0. injection Ht0 as <-.
    destruct (exec_behaves ls _ w' tid (resume (supervisor_thread cx) p) He)
      as (t'' & Ht'' & Hb').
    { simpl. eapply lookup_after_act; eauto. }
    rewrite Ht' in Ht''. injection Ht'' as <-.
    rewrite (exec_fresh_cons _ _ _ _ _ Hs He), events_of_app.
    destruct (behaves_cancel _ _ _ _ _ _ _ _ Ha eq_refl Hb') as [Hes Hv].
    split; [|exact Hv].
    cbn [t_pc supervisor_thread supervisor_select act] in Ha. act_split Ha.
    simpl in E. injection E as <-. simpl in E1. injection E1 as <- <-.
    rewrite (fresh_eq w _ [(tid, EvSelect (CaseDone cx) None)]) by done.
    rewrite events_of_own. destruct Hes as [-> | ->]; auto. }
  split; [exact Hev|]. split.
  - destruct (cancel_branch_run w tid cx e Hp Ht Hc) as (w1 & H1 & H2 & _ & H3). eauto.
  - intros v Hv. unfold returned in Hv. rewrite Ht' in Hv. simpl in Hv.
    destruct (t_pc t') eqn:Epc; try done. injection Hv as ->.
    split; [by apply Hret|].
    intros ls2 w2 He2.
    destruct (exec_behaves _ _ _ _ _ He2 Ht') as (t2 & Ht2 & Hb2).
    destruct t' as [pc' lp']. simpl in Epc. subst pc'.
    apply behaves_Ret in Hb2 as [-> ->].
    split; [done|]. rewrite (Hret v eq_refl) in *.
    split; [unfold returned; by rewrite Ht2|].
    intros pick. simpl. unfold step_thread. destruct (panicked w2); [done|].
    by rewrite Ht2.
Qed.

Lemma C2_cancellation_terminal_witness :
  exists w w',
    exec stopped (NewClient "localhost" 8080) = Some w /\
    threads w !! 1 = Some (supervisor_thread 1) /\
    exec (Go 1 0 :: solo 1 0 1) w = Some w' /\
    (events_of 1 (fresh w w') = [EvSelect (CaseDone 1) None] \/
     events_of 1 (fresh w w') = [EvSelect (CaseDone 1) None; EvTransport OpStop]).
Proof.
  pose (w := default (NewClient "" 0) (exec stopped (NewClient "localhost" 8080))).
  pose (w' := default w (exec (Go 1 0 :: solo 1 0 1) w)).
  exists w, w'. split; [vm_compute; reflexivity|]. split; [vm_compute; reflexivity|].
  split; [vm_compute; reflexivity|].
  exact (proj1 (proj2 (C2_cancellation_terminal w 1 1 (solo 1 0 1) w'
     ltac:(vm_compute; reflexivity) ltac:(vm_compute; reflexivity)))).
Defined.

(** ** The supervisor loop: disconnect and dial error *)

(** The disconnect case, from the [select] through the drain. *)
Lemma disconnect_branch_run w tid cx cn :
  panicked w = false ->
  threads w !! tid = Some (supervisor_thread cx) ->
  chan_ready (c_disconnectCh (client w)) = true ->
  conn (iclient w) = Some cn ->
  exists w6,
    exec (solo tid 1 6) w = Some w6 /\
    fresh w w6 =
      [(tid, EvSelect (CaseRecv DisconnectCh) None);
       (tid, EvLog (LogDisconnect (LocalAddr cn) (RemoteAddr cn)
                                  (c_reconnectIntvl (client w))));
       (tid, EvTryRecv ConnectOkCh (chan_ready (c_connectOkCh (client w))))] /\
    c_connectOkCh (client w6) =
      (if chan_ready (c_connectOkCh (client w)) then chan_pop (c_connectOkCh (client w))
       else c_connectOkCh (client w)) /\
    c_disconnectCh (client w6) = chan_pop (c_disconnectCh (client w)) /\
    c_reconnectIntvl (client w6) = c_reconnectIntvl (client w) /\
    c_connected (client w6) = c_connected (client w) /\
    iclient w6 = iclient w /\ ctxs w6 = ctxs w /\
    threads w6 !! tid =
      Some (mkThread (ReadIntvl (fun d => Sleep d (TRestart Continue))) (Some supervisor)) /\
    now w6 = now w /\ panicked w6 = false /\
    length (threads w6) = length (threads w).
Proof.
  intros Hp Ht Hd Hc.
  pose proof (lookup_lt_Some _ _ _ Ht) as Hlt.
  rewrite (exec_solo_run _ _ _ _ _ Ht).
  destruct w as [c ic cs ts n thr tr pk].
  destruct c as [cc ccan dch och cnd ri], ic as [icn iec hs hp]. simpl in *. subst pk icn.
  destruct dch as [dcap [|[] dbuf]]; [discriminate|].
  destruct och as [ocap [|[] obuf]]; unfold fresh; simpl;
    (eexists; split; [reflexivity|]); simpl;
    rewrite ?list_lookup_insert_eq, ?length_insert by done;
    rewrite <- ?app_assoc, ?drop_app_length; split_and!; done.
Qed.

(** The disconnect case, from the drain into the sleep. *)
Lemma sleep_run w tid :
  panicked w = false ->
  threads w !! tid =
    Some (mkThread (ReadIntvl (fun d => Sleep d (TRestart Continue))) (Some supervisor)) ->
  exists w2,
    exec (solo tid 1 2) w = Some w2 /\
    fresh w w2 = [(tid, EvSleep (c_reconnectIntvl (client w)))] /\
    threads w2 !! tid =
      Some (sleeping_thread (deadline w (c_reconnectIntvl (client w)))) /\
    client w2 = client w /\ iclient w2 = iclient w /\ ctxs w2 = ctxs w /\
    now w2 = now w /\ panicked w2 = false /\
    length (threads w2) = length (threads w).
Proof.
  intros Hp Ht.
  pose proof (lookup_lt_Some _ _ _ Ht) as Hlt.
  rewrite (exec_solo_run _ _ _ _ _ Ht).
  destruct w as [c ic cs ts n thr tr pk]. simpl in *. subst pk.
  unfold fresh; simpl.
  (eexists; split; [reflexivity|]); simpl;
    rewrite ?list_lookup_insert_eq, ?length_insert by done;
    rewrite <- ?app_assoc, ?drop_app_length; split_and!; done.
Qed.

(** The end of the sleep and the restart of the Transport. *)
Lemma wake_restart_run w tid pick t :
  panicked w = false ->
  threads w !! tid = Some (sleeping_thread t) ->
  (t <= now w)%Z ->
  exists w2,
    exec (solo tid pick 2) w = Some w2 /\
    fresh w w2 = [(tid, EvTransport OpRestart)] /\
    threads w2 !! tid = Some looping_thread /\
    client w2 = client w /\ panicked w2 = false.
Proof.
  intros Hp Ht Hn. apply Z.leb_le in Hn.
  pose proof (lookup_lt_Some _ _ _ Ht) as Hlt.
  rewrite (exec_solo_run _ _ _ _ _ Ht).
  destruct w as [c ic cs ts n thr tr pk]. simpl in *. subst pk.
  unfold fresh; simpl. rewrite Hn. simpl.
  (eexists; split; [reflexivity|]); simpl;
    rewrite ?list_lookup_insert_eq, ?length_insert by done;
    rewrite <- ?app_assoc, ?drop_app_length; split_and!; done.
Qed.

(** A sleeping goroutine takes no step before its deadline. *)
Lemma sleeping_blocked w tid t k lp pick :
  threads w !! tid = Some (mkThread (Wake t k) lp) ->
  (now w < t)%Z ->
  step (Go tid pick) w = None.
Proof.
  intros Ht Hn. apply Z.leb_gt in Hn.
  simpl. unfold step_thread. rewrite Ht. simpl. rewrite Hn.
  by destruct (panicked w).
Qed.

(** The disconnect case when [Conn()] is nil: the call of [LocalAddr] on it
    panics. *)
Lemma disconnect_panic_run w tid cx :
  panicked w = false ->
  threads w !! tid = Some (supervisor_thread cx) ->
  chan_ready (c_disconnectCh (client w)) = true ->
  conn (iclient w) = None ->
  exists w2,
    exec (solo tid 1 2) w = Some w2 /\
    fresh w w2 = [(tid, EvSelect (CaseRecv DisconnectCh) None)] /\
    panicked w2 = true.
Proof.
  intros Hp Ht Hd Hc.
  pose proof (lookup_lt_Some _ _ _ Ht) as Hlt.
  rewrite (exec_solo_run _ _ _ _ _ Ht).
  destruct w as [c ic cs ts n thr tr pk].
  destruct c as [cc ccan dch och cnd ri], ic as [icn iec hs hp]. simpl in *. subst pk icn.
  destruct dch as [dcap [|[] dbuf]]; [discriminate|].
  unfold fresh; simpl.
  (eexists; split; [reflexivity|]); simpl.
  rewrite <- ?app_assoc, ?drop_app_length; split_and!; done.
Qed.

(** Once a goroutine has panicked, nothing runs. *)
Lemma panicked_stuck w l : panicked w = true -> step l w = None.
Proof.
  intros Hp. destruct (step l w) eqn:Hs; [|done].
  apply step_not_panicked in Hs. congruence.
Qed.

(** The dial-error case, from the [select] into the sleep. *)
Lemma dial_error_branch_run w tid cx e es :
  panicked w = false ->
  threads w !! tid = Some (supervisor_thread cx) ->
  errChan (iclient w) = e :: es ->
  exists w5,
    exec (solo tid 2 5) w = Some w5 /\
    fresh w w5 =
      [(tid, EvSelect CaseErrChan (Some e));
       (tid, EvLog (LogDialErr (Some e) (c_reconnectIntvl (client w))));
       (tid, EvSleep (c_reconnectIntvl (client w)))] /\
    client w5 = client w /\
    errChan (iclient w5) = es /\ conn (iclient w5) = conn (iclient w) /\
    threads w5 !! tid = Some (sleeping_thread (deadline w (c_reconnectIntvl (client w)))) /\
    now w5 = now w /\ panicked w5 = false /\
    length (threads w5) = length (threads w).
Proof.
  intros Hp Ht He.
  pose proof (lookup_lt_Some _ _ _ Ht) as Hlt.
  rewrite (exec_solo_run _ _ _ _ _ Ht).
  destruct w as [c ic cs ts n thr tr pk].
  destruct c as [cc ccan dch och cnd ri], ic as [icn iec hs hp]. simpl in *. subst pk iec.
  unfold fresh; simpl.
  (eexists; split; [reflexivity|]); simpl;
    rewrite ?list_lookup_insert_eq, ?length_insert by done;
    rewrite <- ?app_assoc, ?drop_app_length; split_and!; done.
Qed.

(** C9: at the [select] of the supervisor loop, the disconnect case run to
    its sleep logs the addresses of [Conn()] and does not panic when
    [Conn()] is not nil, and panics at its first use of [Conn()] when it is
    nil, after which nothing runs; the cancellation case never panics and
    calls [Stop] on the Transport exactly when [Conn()] is not nil. *)
Theorem C9_disconnect_needs_conn w tid cx :
  panicked w = false ->
  threads w !! tid = Some (supervisor_thread cx) ->
  (chan_ready (c_disconnectCh (client w)) = true ->
     (forall cn, conn (iclient w) = Some cn ->
        exists w8, exec (solo tid 1 8) w = Some w8 /\ panicked w8 = false /\
          (tid, EvLog (LogDisconnect (LocalAddr cn) (RemoteAddr cn)
                                     (c_reconnectIntvl (client w)))) ∈ fresh w w8) /\
     (conn (iclient w) = None ->
        exists w2, exec (solo tid 1 2) w = Some w2 /\ panicked w2 = true /\
          fresh w w2 = [(tid, EvSelect (CaseRecv DisconnectCh) None)] /\
          forall l, step l w2 = None)) /\
  (forall e, ctx_err w cx = Some e ->
     exists w1,
       exec (solo tid 0 (if conn (iclient w) is Some _ then 3 else 2)) w = Some w1 /\
       panicked w1 = false /\ returned w1 tid = Some RUnit /\
       ((tid, EvTransport OpStop) ∈ fresh w w1 <-> conn (iclient w) <> None)).
Proof.
  intros Hp Ht. split.
  - intros Hd. split.
    + intros cn Hc.
      destruct (disconnect_branch_run w tid cx cn Hp Ht Hd Hc)
        as (w6 & H6 & Hf & _ & _ & _ & _ & _ & _ & Ht6 & _ & Hp6 & _).
      destruct (sleep_run w6 tid Hp6 Ht6) as (w8 & H8 & _ & _ & _ & _ & _ & _ & Hp8 & _).
      exists w8. split; [|split; [done|]].
      * change 8 with (6 + 2). unfold solo in *. rewrite replicate_add, exec_app, H6. exact H8.
      * assert (exec (solo tid 1 6 ++ solo tid 1 2) w = Some w8) as Hall
          by (rewrite exec_app, H6; exact H8).
        rewrite (fresh_trans w w6 w8) by (eapply exec_trace_app; eauto).
        rewrite Hf. apply elem_of_app. left. rewrite !elem_of_cons. auto.
    + intros Hc. destruct (disconnect_panic_run w tid cx Hp Ht Hd Hc) as (w2 & H2 & Hf & Hp2).
      exists w2. split_and!; try done. intros l. by apply panicked_stuck.
  - intros e Hc.
    destruct (cancel_branch_run w tid cx e Hp Ht Hc) as (w1 & H1 & Hr & Hp1 & Hf).
    exists w1. split_and!; try done. rewrite Hf.
    destruct (conn (iclient w)); split; try done.
    + intros _. rewrite !elem_of_cons. auto.
    + intros Hin. apply elem_of_cons in Hin as [[=]|Hin]. by apply elem_of_nil in Hin.
Qed.

Lemma C9_disconnect_needs_conn_witness :
  exists w,
    exec disconnected (NewClient "localhost" 8080) = Some w /\
    panicked w = false /\
    threads w !! 1 = Some (supervisor_thread 1) /\
    chan_ready (c_disconnectCh (client w)) = true /\
    conn (iclient w) = Some cn0 /\
    exists w8, exec (solo 1 1 8) w = Some w8 /\ panicked w8 = false /\
      (1, EvLog (LogDisconnect (LocalAddr cn0) (RemoteAddr cn0)
                               (c_reconnectIntvl (client w)))) ∈ fresh w w8.
Proof.
  pose (w := default (NewClient "" 0) (exec disconnected (NewClient "localhost" 8080))).
  exists w. do 5 (split; [vm_compute; reflexivity|]).
  exact (proj1 (proj1 (C9_disconnect_needs_conn w 1 1
           ltac:(vm_compute; reflexivity) ltac:(vm_compute; reflexivity))
           ltac:(vm_compute; reflexivity)) cn0 ltac:(vm_compute; reflexivity)).
Defined.

(** ** Waiters *)

(** [Connect] at its [select] with a connect-success signal pending. *)
Lemma Connect_ok_run w tid cx lp :
  panicked w = false ->
  threads w !! tid = Some (mkThread (Connect_select cx) lp) ->
  chan_ready (c_connectOkCh (client w)) = true ->
  exists w1,
    exec (solo tid 1 1) w = Some w1 /\
    returned w1 tid = Some (RError None) /\
    fresh w w1 = [(tid, EvSelect (CaseRecv ConnectOkCh) None)] /\
    c_connectOkCh (client w1) = chan_pop (c_connectOkCh (client w)) /\
    c_connected (client w1) = c_connected (client w) /\
    panicked w1 = false.
Proof.
  intros Hp Ht Hd.
  pose proof (lookup_lt_Some _ _ _ Ht) as Hlt.
  rewrite (exec_solo_run _ _ _ _ _ Ht).
  destruct w as [c ic cs ts n thr tr pk].
  destruct c as [cc ccan dch och cnd ri]. simpl in *. subst pk.
  destruct och as [ocap [|[] obuf]]; [discriminate|].
  unfold fresh, returned; simpl.
  (eexists; split; [reflexivity|]); simpl;
    rewrite ?list_lookup_insert_eq, ?length_insert by done;
    rewrite <- ?app_assoc, ?drop_app_length; split_and!; done.
Qed.

(** [ConnectWithTimeout] at its [select] with a connect-success signal
    pending. *)
Lemma ConnectWithTimeout_ok_run w tid t lp :
  panicked w = false ->
  threads w !! tid = Some (mkThread (ConnectWithTimeout_select t) lp) ->
  chan_ready (c_connectOkCh (client w)) = true ->
  exists w1,
    exec (solo tid 1 2) w = Some w1 /\
    returned w1 tid = Some (RError None) /\
    fresh w w1 = [(tid, EvSelect (CaseRecv ConnectOkCh) None)] /\
    c_connectOkCh (client w1) = chan_pop (c_connectOkCh (client w)) /\
    c_connected (client w1) = c_connected (client w) /\
    ctxs w1 = ctxs w /\
    panicked w1 = false.
Proof.
  intros Hp Ht Hd.
  pose proof (lookup_lt_Some _ _ _ Ht) as Hlt.
  rewrite (exec_solo_run _ _ _ _ _ Ht).
  destruct w as [c ic cs ts n thr tr pk].
  destruct c as [cc ccan dch och cnd ri]. simpl in *. subst pk.
  destruct och as [ocap [|[] obuf]]; [discriminate|].
  unfold fresh, returned; simpl.
  (eexists; split; [reflexivity|]); simpl;
    rewrite ?list_lookup_insert_eq, ?length_insert by done;
    rewrite <- ?app_assoc, ?drop_app_length; split_and!; done.
Qed.

(** C10: the dial-error case of the supervisor loop logs the error, sleeps
    for the reconnect interval and restarts the Transport, and performs no
    receive on the connect-success channel: the channel is the same before
    and after, so a signal pending when the error is received is still
    pending after the restart, and a waiter in [Connect] or
    [ConnectWithTimeout] then consumes it and returns nil. *)
Theorem C10_dial_error_keeps_signal w tid cx e es :
  panicked w = false ->
  threads w !! tid = Some (supervisor_thread cx) ->
  errChan (iclient w) = e :: es ->
  exists w5,
    exec (solo tid 2 5) w = Some w5 /\
    fresh w w5 =
      [(tid, EvSelect CaseErrChan (Some e));
       (tid, EvLog (LogDialErr (Some e) (c_reconnectIntvl (client w))));
       (tid, EvSleep (c_reconnectIntvl (client w)))] /\
    (forall pick, (0 < c_reconnectIntvl (client w))%Z -> step (Go tid pick) w5 = None) /\
    forall dt, (Z.max 0 (c_reconnectIntvl (client w)) <= dt)%Z ->
      exists w7,
        exec (Env (EnvTick dt) :: solo tid 2 2) w5 = Some w7 /\
        fresh w5 w7 = [(tid, EvTransport OpRestart)] /\
        threads w7 !! tid = Some looping_thread /\
        c_connectOkCh (client w7) = c_connectOkCh (client w) /\
        (chan_ready (c_connectOkCh (client w)) = true ->
         (forall wt cx' lp, threads w7 !! wt = Some (mkThread (Connect_select cx') lp) ->
            exists w9, exec (solo wt 1 1) w7 = Some w9 /\
                       returned w9 wt = Some (RError None)) /\
         (forall wt t lp, threads w7 !! wt = Some (mkThread (ConnectWithTimeout_select t) lp) ->
            exists w9, exec (solo wt 1 2) w7 = Some w9 /\
                       returned w9 wt = Some (RError None))).
Proof.
  intros Hp Ht He.
  destruct (dial_error_branch_run w tid cx e es Hp Ht He)
    as (w5 & H5 & Hf & Hc & _ & _ & Ht5 & Hn & Hp5 & _).
  exists w5. split_and!; try done.
  - intros pick Hpos. eapply sleeping_blocked; [exact Ht5|]. unfold deadline. lia.
  - intros dt Hdt.
    assert (0 <= dt)%Z as Hdt0 by lia.
    pose (wt := set_now (now w5 + dt)%Z w5).
    destruct (wake_restart_run wt tid 2 (deadline w (c_reconnectIntvl (client w))))
      as (w7 & H7 & Hf7 & Ht7 & Hc7 & Hp7); try done.
    { subst wt. simpl. unfold deadline. lia. }
    exists w7.
    assert (exec (Env (EnvTick dt) :: solo tid 2 2) w5 = Some w7) as Hex.
    { change (step_env (EnvTick dt) w5 ≫= exec (solo tid 2 2) = Some w7).
      unfold step_env. rewrite Hp5.
      apply Z.leb_le in Hdt0. rewrite Hdt0. exact H7. }
    split; [exact Hex|]. split; [exact Hf7|]. split; [exact Ht7|].
    assert (client w7 = client w) as Hcl by (rewrite Hc7; subst wt; simpl; done).
    split; [by rewrite Hcl|].
    intros Hr. rewrite <- Hcl in Hr. split.
    + intros wt' cx' lp Hw.
      destruct (Connect_ok_run w7 wt' cx' lp Hp7 Hw Hr) as (w9 & H9 & Hr9 & _). eauto.
    + intros wt' t lp Hw.
      destruct (ConnectWithTimeout_ok_run w7 wt' t lp Hp7 Hw Hr) as (w9 & H9 & Hr9 & _). eauto.
Qed.

Lemma C10_dial_error_keeps_signal_witness :
  exists w,
    exec (dial_failed refused) (NewClient "localhost" 8080) = Some w /\
    panicked w = false /\
    threads w !! 1 = Some (supervisor_thread 1) /\
    errChan (iclient w) = [refused] /\
    chan_ready (c_connectOkCh (client w)) = true /\
    exists w5, exec (solo 1 2 5) w = Some w5 /\
      fresh w w5 =
        [(1, EvSelect CaseErrChan (Some refused));
         (1, EvLog (LogDialErr (Some refused) (c_reconnectIntvl (client w))));
         (1, EvSleep (c_reconnectIntvl (client w)))].
Proof.
  pose (w := default (NewClient "" 0)
               (exec (dial_failed refused) (NewClient "localhost" 8080))).
  exists w. do 5 (split; [vm_compute; reflexivity|]).
  destruct (C10_dial_error_keeps_signal w 1 1 refused []
              ltac:(vm_compute; reflexivity) ltac:(vm_compute; reflexivity)
              ltac:(vm_compute; reflexivity)) as (w5 & H5 & Hf & _).
  exists w5. split; [exact H5 | exact Hf].
Defined.

(** ** The connect-success channel between a drain and a receive *)

(** An empty connect-success channel becomes ready only by a send that
    succeeds. *)
Lemma act_ok_ready tid pick p w w1 p' :
  act tid pick p w = Some (w1, p') ->
  chan_ready (c_connectOkCh (client w)) = false ->
  chan_ready (c_connectOkCh (client w1)) = true ->
  fresh w w1 = [(tid, EvTrySend ConnectOkCh true)].
Proof.
  intros Ha H0 H1. destruct p; cbn [act] in Ha; act_split Ha;
    try (simpl in H1; congruence).
  - destruct ch; simpl in *; [congruence|]. by rewrite fresh_emit.
  - destruct ch; simpl in *; [congruence|].
    unfold chan_ready in *. simpl in H1. destruct (ch_buf (c_connectOkCh (client w))); done.
  - destruct s; simplify_eq/=; try congruence.
    destruct ch; simpl in *; [congruence|].
    unfold chan_ready in *. simpl in H1. destruct (ch_buf (c_connectOkCh (client w))); done.
Qed.

Lemma step_ok_ready l w w' :
  step l w = Some w' ->
  chan_ready (c_connectOkCh (client w)) = false ->
  chan_ready (c_connectOkCh (client w')) = true ->
  exists t, fresh w w' = [(t, EvTrySend ConnectOkCh true)].
Proof.
  intros Hs H0 H1. destruct l as [tid pick|a]; simpl in Hs.
  - apply step_thread_inv in Hs as (_ & t & w1 & p & _ & Ha & ->).
    exists tid. simpl in H1.
    rewrite <- (act_ok_ready _ _ _ _ _ _ Ha H0 H1). done.
  - unfold step_env in Hs. destruct (panicked w); [done|].
    destruct a; act_split Hs; simpl in H1; congruence.
Qed.

Lemma exec_ok_ready ls w w' :
  exec ls w = Some w' ->
  chan_ready (c_connectOkCh (client w)) = false ->
  chan_ready (c_connectOkCh (client w')) = true ->
  exists t, (t, EvTrySend ConnectOkCh true) ∈ fresh w w'.
Proof.
  revert w. induction ls as [|l ls IH]; intros w He H0 H1.
  - simpl in He. injection He as <-. congruence.
  - pose proof He as He'. cbn [exec] in He'.
    destruct (step l w) as [wa|] eqn:Hs; [|done]. cbn [mbind option_bind] in He'.
    rewrite (exec_fresh_cons _ _ _ _ _ Hs He').
    destruct (chan_ready (c_connectOkCh (client wa))) eqn:Ha.
    + destruct (step_ok_ready _ _ _ Hs H0 Ha) as [t Hf]. exists t.
      rewrite Hf. apply elem_of_app. left. rewrite elem_of_cons. auto.
    + destruct (IH wa He' Ha H1) as [t Hin]. exists t. apply elem_of_app. by right.
Qed.

(** The next step of a goroutine in a [behaves] derivation, with the case in
    which the derivation stops here closed by [stop]. *)
Ltac behaves_next stop :=
  match goal with
  | H : behaves _ _ _ _ |- _ => behaves_inv H; [stop|..]; try behaves_case
  end.

Ltac stop_prefix := simpl; do 5 eexists; left; eexists; simpl; reflexivity.

Lemma behaves_disconnect tid cx w w1 p es t' :
  act tid 1 (supervisor_select cx) w = Some (w1, p) ->
  behaves tid (resume (supervisor_thread cx) p) es t' ->
  exists l r d1 b d2, in_order tid (disconnect_body l r d1 b d2) es.
Proof.
  intros Ha Hb. unfold supervisor_select in Ha. cbn [act] in Ha. act_split Ha.
  simpl in Hb. unfold in_order, disconnect_body.
  behaves_next stop_prefix.
  2: { behaves_next stop_prefix. }
  behaves_next stop_prefix.
  2: { behaves_next stop_prefix. }
  do 6 behaves_next stop_prefix.
  all: behaves_next stop_prefix.
  all: simpl; do 5 eexists; right; eexists _, _; (split; [reflexivity|]);
    match goal with H : behaves _ _ _ _ |- _ => exact H end.
  Unshelve.
  all: first [exact EmptyString | exact 0%Z | exact true].
Qed.

(** A step of a goroutine followed by any schedule: its events are those of
    the step followed by events it can produce from where the step left
    it. *)
Lemma exec_first_step tid pick ls w w' t :
  threads w !! tid = Some t ->
  exec (Go tid pick :: ls) w = Some w' ->
  exists w1 p es t',
    act tid pick (t_pc t) w = Some (w1, p) /\
    threads w' !! tid = Some t' /\
    events_of tid (fresh w w') = events_of tid (fresh w w1) ++ es /\
    behaves tid (resume t p) es t'.
Proof.
  intros Ht He. cbn [exec] in He.
  destruct (step (Go tid pick) w) as [wa|] eqn:Hs; [|done].
  cbn [mbind option_bind] in He.
  pose proof Hs as Hs'. simpl in Hs'.
  apply step_thread_inv in Hs' as (_ & t0 & w1 & p & Ht0 & Ha & ->).
  rewrite Ht in Ht0. injection Ht0 as <-.
  destruct (exec_behaves ls _ w' tid (resume t p) He) as (t' & Ht' & Hb).
  { simpl. eapply lookup_after_act; eauto. }
  eexists w1, p, _, t'. split; [done|]. split; [done|]. split; [|exact Hb].
  rewrite (exec_fresh_cons _ _ _ _ _ Hs He), events_of_app. done.
Qed.

(** C5: at the [select] of the supervisor loop with a disconnect signal
    pending and [Conn()] not nil, the loop goroutine logs the disconnection,
    performs the non-blocking receive on the connect-success channel (which
    receives nothing when no signal is pending), starts the sleep of the
    reconnect interval, takes no step before the interval has passed, and
    then restarts the Transport and goes back to the top of the loop, in
    this order under every schedule; after the drain the connect-success
    channel is empty, and it is ready again later only if a send on it has
    succeeded after the drain. *)
Theorem C5_disconnect_drain_sleep_restart w tid cx cn :
  panicked w = false ->
  threads w !! tid = Some (supervisor_thread cx) ->
  chan_ready (c_disconnectCh (client w)) = true ->
  conn (iclient w) = Some cn ->
  chans_ok w ->
  (exists w6 w8,
    exec (solo tid 1 6) w = Some w6 /\
    fresh w w6 =
      [(tid, EvSelect (CaseRecv DisconnectCh) None);
       (tid, EvLog (LogDisconnect (LocalAddr cn) (RemoteAddr cn)
                                  (c_reconnectIntvl (client w))));
       (tid, EvTryRecv ConnectOkCh (chan_ready (c_connectOkCh (client w))))] /\
    chan_ready (c_connectOkCh (client w6)) = false /\
    exec (solo tid 1 2) w6 = Some w8 /\
    fresh w6 w8 = [(tid, EvSleep (c_reconnectIntvl (client w)))] /\
    ((0 < c_reconnectIntvl (client w))%Z -> forall pick, step (Go tid pick) w8 = None) /\
    (forall dt, (Z.max 0 (c_reconnectIntvl (client w)) <= dt)%Z ->
       exists w10,
         exec (Env (EnvTick dt) :: solo tid 1 2) w8 = Some w10 /\
         fresh w8 w10 = [(tid, EvTransport OpRestart)] /\
         threads w10 !! tid = Some looping_thread /\
         chan_ready (c_connectOkCh (client w10)) = false) /\
    (forall ls w', exec ls w6 = Some w' ->
       chan_ready (c_connectOkCh (client w')) = true ->
       exists t, (t, EvTrySend ConnectOkCh true) ∈ fresh w6 w')) /\
  (forall ls w', exec (Go tid 1 :: ls) w = Some w' ->
     exists es l r d1 b d2,
       events_of tid (fresh w w') = EvSelect (CaseRecv DisconnectCh) None :: es /\
       in_order tid (disconnect_body l r d1 b d2) es).
Proof.
  intros Hp Ht Hd Hc Hok. split.
  - destruct (disconnect_branch_run w tid cx cn Hp Ht Hd Hc)
      as (w6 & H6 & Hf & Ho6 & _ & Hi6 & _ & _ & _ & Ht6 & Hn6 & Hp6 & _).
    destruct (sleep_run w6 tid Hp6 Ht6)
      as (w8 & H8 & Hf8 & Ht8 & Hc8 & _ & _ & Hn8 & Hp8 & _).
    assert (chan_ready (c_connectOkCh (client w6)) = false) as Hempty.
    { rewrite Ho6. destruct (chan_ready (c_connectOkCh (client w))) eqn:Hr; [|done].
      destruct (Hok ConnectOkCh) as [_ Hl]. simpl in Hl.
      unfold chan_ready, chan_pop in *. simpl.
      destruct (ch_buf (c_connectOkCh (client w))) as [|[] [|]]; simpl in *; try done; lia. }
    exists w6, w8. split_and!; try done.
    + by rewrite Hf8, Hi6.
    + intros Hpos pick. eapply sleeping_blocked; [exact Ht8|].
      rewrite Hn8, Hi6. unfold deadline. rewrite Hn6. lia.
    + intros dt Hdt.
      assert (0 <= dt)%Z as Hdt0 by lia.
      pose (wt := set_now (now w8 + dt)%Z w8).
      destruct (wake_restart_run wt tid 1 (deadline w6 (c_reconnectIntvl (client w6))))
        as (w10 & H10 & Hf10 & Ht10 & Hc10 & Hp10); try done.
      { subst wt. simpl. unfold deadline. rewrite Hn8, Hi6. lia. }
      exists w10. split_and!; try done.
      * change (step_env (EnvTick dt) w8 ≫= exec (solo tid 1 2) = Some w10).
        unfold step_env. rewrite Hp8.
        apply Z.leb_le in Hdt0. rewrite Hdt0. exact H10.
      * rewrite Hc10. subst wt. simpl. by rewrite Hc8.
    + intros ls w' He Hr. by eapply exec_ok_ready.
  - intros ls w' He.
    destruct (exec_first_step _ _ _ _ _ _ Ht He) as (w1 & p & es & t' & Ha & _ & Hev & Hb).
    destruct (behaves_disconnect _ _ _ _ _ _ _ Ha Hb) as (l & r & d1 & b & d2 & Hord).
    exists es, l, r, d1, b, d2. split; [|exact Hord].
    rewrite Hev. f_equal.
    cbn [t_pc supervisor_thread supervisor_select act] in Ha. act_split Ha.
    simpl in E. injection E as <-. simpl in E1. injection E1 as <- <-.
    rewrite (fresh_eq w _ [(tid, EvSelect (CaseRecv DisconnectCh) None)]) by done.
    by rewrite events_of_own.
Qed.

Lemma C5_disconnect_drain_sleep_restart_witness :
  exists w,
    exec disconnected (NewClient "localhost" 8080) = Some w /\
    panicked w = false /\
    threads w !! 1 = Some (supervisor_thread 1) /\
    chan_ready (c_disconnectCh (client w)) = true /\
    conn (iclient w) = Some cn0 /\
    chans_ok w /\
    chan_ready (c_connectOkCh (client w)) = true /\
    exists w6, exec (solo 1 1 6) w = Some w6 /\
               chan_ready (c_connectOkCh (client w6)) = false.
Proof.
  pose (w := default (NewClient "" 0) (exec disconnected (NewClient "localhost" 8080))).
  assert (exec disconnected (NewClient "localhost" 8080) = Some w) as Hw
    by (vm_compute; reflexivity).
  exists w. split; [exact Hw|]. do 4 (split; [vm_compute; reflexivity|]).
  split; [exact (reachable_chans_ok _ _ _ _ Hw)|].
  split; [vm_compute; reflexivity|].
  destruct (C5_disconnect_drain_sleep_restart w 1 1 cn0
              ltac:(vm_compute; reflexivity) ltac:(vm_compute; reflexivity)
              ltac:(vm_compute; reflexivity) ltac:(vm_compute; reflexivity)
              (reachable_chans_ok _ _ _ _ Hw)) as [(w6 & w8 & H6 & _ & He & _) _].
  exists w6. split; [exact H6 | exact He].
Defined.

(** ** Starting the Manager *)

Ltac solo_run Ht :=
  let Hlt := fresh "Hlt" in
  pose proof (lookup_lt_Some _ _ _ Ht) as Hlt;
  rewrite (exec_solo_run _ _ _ _ _ Ht).

Ltac solo_done :=
  (eexists; split; [reflexivity|]); simpl;
  rewrite ?list_lookup_insert_eq, ?length_insert, ?length_app by (rewrite ?length_app; simpl; lia);
  rewrite <- ?app_assoc, ?drop_app_length; split_and!; try done.

(** [StartWithContext]: a child of the given context is stored in [c.ctx]
    with its cancel function, the Transport is started and one more
    goroutine runs the loop. *)
Lemma StartWithContext_run w tid ctx n lp :
  panicked w = false ->
  threads w !! tid = Some (mkThread (StartWithContext ctx) lp) ->
  ctxs w !! ctx = Some n ->
  exists w3,
    exec (solo tid 0 3) w = Some w3 /\
    fresh w w3 =
      [(tid, EvWithCancel ctx (length (ctxs w)));
       (tid, EvTransport OpStart);
       (tid, EvGo (length (threads w)))] /\
    threads w3 = <[tid := mkThread (Ret RUnit) lp]> (threads w ++ [looping_thread]) /\
    ctxs w3 = ctxs w ++ [with_cancel n ctx] /\
    c_ctx (client w3) = Some (length (ctxs w)) /\
    c_cancel (client w3) = Some (length (ctxs w)) /\
    panicked w3 = false.
Proof.
  intros Hp Ht Hc. solo_run Ht.
  destruct w as [c ic cs ts nw thr tr pk]. simpl in *. subst pk.
  unfold fresh; simpl. rewrite Hc. simpl. solo_done.
Qed.

(** [Connect] up to its [select]: it has started the Manager as above and
    waits on the context it has just stored. *)
Lemma Connect_start_run w tid ctx n lp :
  panicked w = false ->
  threads w !! tid = Some (mkThread (Connect ctx) lp) ->
  ctxs w !! ctx = Some n ->
  exists w4,
    exec (solo tid 0 4) w = Some w4 /\
    fresh w w4 =
      [(tid, EvWithCancel ctx (length (ctxs w)));
       (tid, EvTransport OpStart);
       (tid, EvGo (length (threads w)))] /\
    threads w4 =
      <[tid := mkThread (Connect_select (length (ctxs w))) lp]> (threads w ++ [looping_thread]) /\
    ctxs w4 = ctxs w ++ [with_cancel n ctx] /\
    client w4 = set_ctx_cancel (length (ctxs w)) (client w) /\
    iclient w4 = iclient w /\ timers w4 = timers w /\ now w4 = now w /\
    panicked w4 = false.
Proof.
  intros Hp Ht Hc. solo_run Ht.
  destruct w as [c ic cs ts nw thr tr pk]. simpl in *. subst pk.
  unfold fresh; simpl. rewrite Hc. simpl. solo_done.
Qed.

(** [ConnectWithTimeout] up to its [select]. *)
Lemma ConnectWithTimeout_start_run w tid d n lp :
  panicked w = false ->
  threads w !! tid = Some (mkThread (ConnectWithTimeout d) lp) ->
  ctxs w !! Background = Some n ->
  exists w4,
    exec (solo tid 0 4) w = Some w4 /\
    fresh w w4 =
      [(tid, EvWithCancel Background (length (ctxs w)));
       (tid, EvTransport OpStart);
       (tid, EvGo (length (threads w)))] /\
    threads w4 =
      <[tid := mkThread (ConnectWithTimeout_select (length (timers w))) lp]>
        (threads w ++ [looping_thread]) /\
    ctxs w4 = ctxs w ++ [with_cancel n Background] /\
    client w4 = set_ctx_cancel (length (ctxs w)) (client w) /\
    iclient w4 = iclient w /\
    timers w4 = timers w ++ [mkTimer (deadline w d) false false] /\
    now w4 = now w /\
    panicked w4 = false.
Proof.
  intros Hp Ht Hc. solo_run Ht.
  destruct w as [c ic cs ts nw thr tr pk]. simpl in *. subst pk.
  unfold fresh; simpl. rewrite Hc. simpl. solo_done.
Qed.

Lemma length_filter_insert {A} (f : A -> bool) (l : list A) i x y :
  l !! i = Some x -> f y = f x ->
  length (List.filter f (<[i := y]> l)) = length (List.filter f l).
Proof.
  revert i. induction l as [|a l IH]; intros [|i] Hl Hf; simpl in *; try done.
  - injection Hl as ->. rewrite Hf. by destruct (f x).
  - destruct (f a); simpl; by rewrite (IH i).
Qed.

Lemma active_loops_spawn (thr : list thread) tid t t' :
  thr !! tid = Some t ->
  loop_active t' = loop_active t ->
  length (List.filter loop_active (<[tid := t']> (thr ++ [looping_thread]))) =
  S (length (List.filter loop_active thr)).
Proof.
  intros Ht Hl.
  rewrite (length_filter_insert _ _ _ t) by (try apply lookup_app_l_Some; done).
  rewrite List.filter_app, length_app. simpl. lia.
Qed.

(** The claim as the specification words it fails: after a second call of
    [StartWithContext] two loop goroutines are active. *)
Lemma C1_single_loop_counterexample :
  exists w w',
    exec started (NewClient "localhost" 8080) = Some w /\
    active_loops w = 1 /\
    exec start_again w = Some w' /\
    returned w' 2 = Some RUnit /\
    active_loops w' = 2.
Proof.
  pose (w := default (NewClient "" 0) (exec started (NewClient "localhost" 8080))).
  pose (w' := default w (exec start_again w)).
  exists w, w'. split_and!; vm_compute; reflexivity.
Qed.

(** C1, amended: every call of [StartWithContext], and every call of
    [Connect], starts one more loop goroutine, whether or not one is
    already active, and leaves the other goroutines as they are. *)
Theorem C1_every_start_spawns_a_loop w tid ctx n :
  panicked w = false ->
  ctxs w !! ctx = Some n ->
  (threads w !! tid = Some (mkThread (StartWithContext ctx) None) ->
   exists w3,
     exec (solo tid 0 3) w = Some w3 /\
     returned w3 tid = Some RUnit /\
     active_loops w3 = S (active_loops w) /\
     threads w3 !! length (threads w) = Some looping_thread /\
     forall j t, j <> tid -> threads w !! j = Some t -> threads w3 !! j = Some t) /\
  (threads w !! tid = Some (mkThread (Connect ctx) None) ->
   exists w4,
     exec (solo tid 0 4) w = Some w4 /\
     pc w4 tid = Some (Connect_select (length (ctxs w))) /\
     active_loops w4 = S (active_loops w) /\
     threads w4 !! length (threads w) = Some looping_thread /\
     forall j t, j <> tid -> threads w !! j = Some t -> threads w4 !! j = Some t).
Proof.
  intros Hp Hc. split; intros Ht; pose proof (lookup_lt_Some _ _ _ Ht) as Hlt.
  - destruct (StartWithContext_run w tid ctx n None Hp Ht Hc) as (w3 & H3 & _ & Hth & _).
    exists w3. unfold returned, active_loops. rewrite Hth. split_and!; try done.
    + rewrite list_lookup_insert_eq by (rewrite length_app; simpl; lia). done.
    + by apply (active_loops_spawn _ _ _ _ Ht).
    + rewrite list_lookup_insert_ne by lia. by rewrite lookup_app_r, Nat.sub_diag.
    + intros j t Hj Hjt. rewrite list_lookup_insert_ne by done. by apply lookup_app_l_Some.
  - destruct (Connect_start_run w tid ctx n None Hp Ht Hc) as (w4 & H4 & _ & Hth & _).
    exists w4. unfold pc, active_loops. rewrite Hth. split_and!; try done.
    + rewrite list_lookup_insert_eq by (rewrite length_app; simpl; lia). done.
    + by apply (active_loops_spawn _ _ _ _ Ht).
    + rewrite list_lookup_insert_ne by lia. by rewrite lookup_app_r, Nat.sub_diag.
    + intros j t Hj Hjt. rewrite list_lookup_insert_ne by done. by apply lookup_app_l_Some.
Qed.

Lemma C1_every_start_spawns_a_loop_witness :
  exists w w3,
    exec (started ++ [Env (EnvCall (StartWithContext Background))])
         (NewClient "localhost" 8080) = Some w /\
    active_loops w = 1 /\
    exec (solo 2 0 3) w = Some w3 /\
    active_loops w3 = 2.
Proof.
  pose (w := default (NewClient "" 0)
               (exec (started ++ [Env (EnvCall (StartWithContext Background))])
                     (NewClient "localhost" 8080))).
  destruct (proj1 (C1_every_start_spawns_a_loop w 2 Background (mkCtx [] None)
              ltac:(vm_compute; reflexivity) ltac:(vm_compute; reflexivity))
              ltac:(vm_compute; reflexivity)) as (w3 & H3 & _ & Ha & _).
  exists w, w3. split; [vm_compute; reflexivity|]. split; [vm_compute; reflexivity|].
  split; [exact H3 | exact Ha].
Defined.

(** ** Contexts *)

Lemma cancel_ctx_lookup k e cs j n a :
  cs !! k = Some (mkCtx a None) ->
  cs !! j = Some n ->
  cancel_ctx k e cs !! j =
  Some (match cx_err n with
        | Some _ => n
        | None => if bool_decide (j = k \/ k ∈ cx_anc n) then mkCtx (cx_anc n) (Some e) else n
        end).
Proof.
  intros Hk Hj. unfold cancel_ctx. rewrite Hk, list_lookup_imap, Hj. done.
Qed.

(** Cancelling a context leaves alone every context that is neither it nor
    one of its descendants. *)
Lemma cancel_ctx_other k e cs j n :
  cs !! j = Some n -> j <> k -> k ∉ cx_anc n ->
  cancel_ctx k e cs !! j = Some n.
Proof.
  intros Hj Hne Hanc. unfold cancel_ctx.
  destruct (cs !! k) as [[a [|]]|]; try done.
  rewrite list_lookup_imap, Hj. simpl. destruct (cx_err n); [done|].
  rewrite bool_decide_false; [done|]. by intros [|].
Qed.

(** Cancelling a live context cancels its live children with the same
    error. *)
Lemma cancel_ctx_child k e cs a anc :
  cs !! k = Some (mkCtx a None) ->
  cancel_ctx k e (cs ++ [mkCtx (k :: anc) None]) !! length cs =
  Some (mkCtx (k :: anc) (Some e)).
Proof.
  intros Hk.
  rewrite (cancel_ctx_lookup k e _ (length cs) (mkCtx (k :: anc) None) a).
  - simpl. rewrite bool_decide_true; [done|]. right. apply elem_of_cons. by left.
  - by apply lookup_app_l_Some.
  - by rewrite lookup_app_r, Nat.sub_diag.
Qed.

(** ** [Connect] at its [select] *)

(** The context is done: [Connect] returns [c.ctx.Err()]. *)
Lemma Connect_done_run w tid cx e lp :
  panicked w = false ->
  threads w !! tid = Some (mkThread (Connect_select cx) lp) ->
  ctx_err w cx = Some e ->
  c_ctx (client w) = Some cx ->
  exists w3,
    exec (solo tid 0 3) w = Some w3 /\
    returned w3 tid = Some (RError (Some (CtxError e))) /\
    fresh w w3 = [(tid, EvSelect (CaseDone cx) None)] /\
    client w3 = client w /\ panicked w3 = false.
Proof.
  intros Hp Ht Hc Hx. solo_run Ht.
  destruct w as [c ic cs ts nw thr tr pk]. simpl in *. subst pk.
  unfold ctx_err in *. simpl in *.
  destruct (cs !! cx) as [[anc err]|] eqn:E; simpl in Hc; [|done]. subst err.
  unfold fresh, returned; simpl. rewrite Hx. simpl. rewrite E. simpl. solo_done.
Qed.

(** Neither case can proceed: [Connect] blocks. *)
Lemma Connect_blocked w tid cx lp pick :
  threads w !! tid = Some (mkThread (Connect_select cx) lp) ->
  ctx_err w cx = None ->
  chan_ready (c_connectOkCh (client w)) = false ->
  step (Go tid pick) w = None.
Proof.
  intros Ht Hc Hr. simpl. unfold step_thread. rewrite Ht.
  destruct (panicked w); [done|]. simpl.
  destruct pick as [|[|pick]]; simpl; rewrite ?Hc, ?Hr; done.
Qed.

(** Under every schedule, what [Connect] returns is nil or the error of a
    context. *)
Lemma behaves_Connect_select tid cx lp es t' v :
  behaves tid (mkThread (Connect_select cx) lp) es t' ->
  t_pc t' = Ret v ->
  v = RError None \/ exists e, v = RError (Some (CtxError e)).
Proof.
  intros Hb Hv. unfold Connect_select in Hb.
  behaves_inv Hb; [done|].
  destruct pick as [|pick]; cbn [resume t_loop t_pc] in Hb0.
  - behaves_inv Hb0; [done|]. behaves_case.
    + behaves_inv Hb; [done|]. apply behaves_Ret in Hb0 as [_ ->].
      simpl in Hv. injection Hv as <-. destruct (cx_err _); simpl; eauto.
    + behaves_inv Hb; done.
  - apply behaves_Ret in Hb0 as [_ ->]. simpl in Hv. injection Hv as <-. auto.
Qed.

(** C4: [Connect(ctx)] starts the Manager under a child of [ctx] and waits
    at its [select]: it takes no step while that context is live and no
    connect-success signal is pending; it returns the error of the context
    when [ctx] was already cancelled or is cancelled while it waits, and nil
    when a signal is pending; and under every schedule what it returns is
    nil or the error of a context, never a dial error. *)
Theorem C4_connect_result w tid ctx n lp :
  panicked w = false ->
  threads w !! tid = Some (mkThread (Connect ctx) lp) ->
  ctxs w !! ctx = Some n ->
  exists w4,
    exec (solo tid 0 4) w = Some w4 /\
    fresh w w4 =
      [(tid, EvWithCancel ctx (length (ctxs w)));
       (tid, EvTransport OpStart);
       (tid, EvGo (length (threads w)))] /\
    pc w4 tid = Some (Connect_select (length (ctxs w))) /\
    threads w4 !! length (threads w) = Some looping_thread /\
    ctxs w4 !! length (ctxs w) = Some (with_cancel n ctx) /\
    (cx_err n = None -> chan_ready (c_connectOkCh (client w)) = false ->
     forall pick, step (Go tid pick) w4 = None) /\
    (forall e, cx_err n = Some e ->
       exists w7, exec (solo tid 0 3) w4 = Some w7 /\
                  returned w7 tid = Some (RError (Some (CtxError e)))) /\
    (forall e, cx_err n = None -> ctx <> Background ->
       exists w8, exec (Env (EnvCancel ctx e) :: solo tid 0 3) w4 = Some w8 /\
                  returned w8 tid = Some (RError (Some (CtxError e)))) /\
    (chan_ready (c_connectOkCh (client w)) = true ->
       exists w5, exec (solo tid 1 1) w4 = Some w5 /\
                  returned w5 tid = Some (RError None)) /\
    (forall ls w' v, exec ls w4 = Some w' -> returned w' tid = Some v ->
       v = RError None \/ exists e, v = RError (Some (CtxError e))).
Proof.
  intros Hp Ht Hc. pose proof (lookup_lt_Some _ _ _ Ht) as Hlt.
  destruct (Connect_start_run w tid ctx n lp Hp Ht Hc)
    as (w4 & H4 & Hf & Hth & Hcs & Hcl & Hic & Hts & Hnw & Hp4).
  assert (threads w4 !! tid = Some (mkThread (Connect_select (length (ctxs w))) lp)) as Ht4.
  { rewrite Hth. apply list_lookup_insert_eq. rewrite length_app. simpl. lia. }
  assert (ctxs w4 !! length (ctxs w) = Some (with_cancel n ctx)) as Hcx.
  { by rewrite Hcs, lookup_app_r, Nat.sub_diag. }
  assert (ctx_err w4 (length (ctxs w)) = cx_err n) as Herr.
  { unfold ctx_err. by rewrite Hcx. }
  exists w4. split_and!; try done.
  - unfold pc. by rewrite Ht4.
  - rewrite Hth, list_lookup_insert_ne by lia. by rewrite lookup_app_r, Nat.sub_diag.
  - intros Hn Hr pick. eapply Connect_blocked; [exact Ht4| |].
    + by rewrite Herr.
    + by rewrite Hcl.
  - intros e He.
    destruct (Connect_done_run w4 tid (length (ctxs w)) e lp Hp4 Ht4) as (w7 & H7 & Hr & _).
    + by rewrite Herr.
    + by rewrite Hcl.
    + eauto.
  - intros e He Hbg. destruct n as [a err]. simpl in He. subst err.
    pose (wc := set_ctxs (cancel_ctx ctx e (ctxs w4)) w4).
    destruct (Connect_done_run wc tid (length (ctxs w)) e lp Hp4 Ht4) as (w8 & H8 & Hr & _).
    + unfold ctx_err, wc. simpl. rewrite Hcs. unfold with_cancel. simpl.
      by erewrite cancel_ctx_child.
    + unfold wc. simpl. by rewrite Hcl.
    + exists w8. split; [|done].
      change (step_env (EnvCancel ctx e) w4 ≫= exec (solo tid 0 3) = Some w8).
      assert (ctxs w4 !! ctx = Some (mkCtx a None)) as Hc4
        by (rewrite Hcs; by apply lookup_app_l_Some).
      unfold step_env. rewrite Hp4, bool_decide_false by done.
      rewrite Hc4. exact H8.
  - intros Hr.
    destruct (Connect_ok_run w4 tid (length (ctxs w)) lp Hp4 Ht4) as (w5 & H5 & Hr5 & _).
    + by rewrite Hcl.
    + eauto.
  - intros ls w' v He Hv.
    destruct (exec_behaves _ _ _ _ _ He Ht4) as (t' & Ht' & Hb).
    unfold returned in Hv. rewrite Ht' in Hv. simpl in Hv.
    destruct (t_pc t') eqn:Epc; try done. injection Hv as ->.
    eapply behaves_Connect_select; eauto.
Qed.

Lemma C4_connect_result_witness :
  exists w w4,
    exec connecting (NewClient "localhost" 8080) = Some w /\
    panicked w = false /\
    threads w !! 0 = Some (mkThread (Connect 1) None) /\
    ctxs w !! 1 = Some (mkCtx [Background] None) /\
    exec (solo 0 0 4) w = Some w4 /\
    pc w4 0 = Some (Connect_select 2).
Proof.
  pose (w := default (NewClient "" 0) (exec connecting (NewClient "localhost" 8080))).
  destruct (C4_connect_result w 0 1 (mkCtx [Background] None) None
              ltac:(vm_compute; reflexivity) ltac:(vm_compute; reflexivity)
              ltac:(vm_compute; reflexivity)) as (w4 & H4 & _ & Hpc & _).
  exists w, w4. do 4 (split; [vm_compute; reflexivity|]).
  split; [exact H4 | exact Hpc].
Defined.

(** ** [ConnectWithTimeout] at its [select] *)

(** The timer has fired: [Stop] cancels the context stored in [c.cancel],
    and the call returns the timeout error. *)
Lemma ConnectWithTimeout_timeout_run w tid t cx lp :
  panicked w = false ->
  threads w !! tid = Some (mkThread (ConnectWithTimeout_select t) lp) ->
  timer_fired w t = true ->
  c_cancel (client w) = Some cx ->
  exists w4,
    exec (solo tid 0 4) w = Some w4 /\
    returned w4 tid = Some (RError (Some (ErrorsNew "connect timeout"))) /\
    fresh w w4 = [(tid, EvSelect (CaseTimer t) None); (tid, EvCancel cx)] /\
    ctxs w4 = cancel_ctx cx Canceled (ctxs w) /\
    client w4 = client w /\ panicked w4 = false.
Proof.
  intros Hp Ht Hf Hx. solo_run Ht.
  destruct w as [c ic cs ts nw thr tr pk]. simpl in *. subst pk.
  unfold fresh, returned; simpl. rewrite Hf. simpl. rewrite Hx. simpl. solo_done.
Qed.

Lemma ConnectWithTimeout_blocked w tid t lp pick :
  threads w !! tid = Some (mkThread (ConnectWithTimeout_select t) lp) ->
  timer_fired w t = false ->
  chan_ready (c_connectOkCh (client w)) = false ->
  step (Go tid pick) w = None.
Proof.
  intros Ht Hc Hr. simpl. unfold step_thread. rewrite Ht.
  destruct (panicked w); [done|]. simpl.
  destruct pick as [|[|pick]]; simpl; rewrite ?Hc, ?Hr; done.
Qed.

(** C3: [ConnectWithTimeout(d)] starts the Manager under a new child of
    [context.Background()], which is live and which the cancellation of no
    other context reaches, and waits at its [select]: it takes no step while
    the timer has not fired and no connect-success signal is pending; once
    the duration has passed it cancels that context through [Stop] and
    returns an error whose message contains "timeout"; with a signal
    pending it returns nil and leaves the context live. *)
Theorem C3_connect_with_timeout w tid d lp :
  panicked w = false ->
  threads w !! tid = Some (mkThread (ConnectWithTimeout d) lp) ->
  ctxs w !! Background = Some (mkCtx [] None) ->
  exists w4,
    exec (solo tid 0 4) w = Some w4 /\
    fresh w w4 =
      [(tid, EvWithCancel Background (length (ctxs w)));
       (tid, EvTransport OpStart);
       (tid, EvGo (length (threads w)))] /\
    pc w4 tid = Some (ConnectWithTimeout_select (length (timers w))) /\
    threads w4 !! length (threads w) = Some looping_thread /\
    c_ctx (client w4) = Some (length (ctxs w)) /\
    ctxs w4 !! length (ctxs w) = Some (mkCtx [Background] None) /\
    (forall k e w5, step (Env (EnvCancel k e)) w4 = Some w5 -> k <> length (ctxs w) ->
       ctx_err w5 (length (ctxs w)) = None) /\
    ((0 < d)%Z -> chan_ready (c_connectOkCh (client w)) = false ->
     forall pick, step (Go tid pick) w4 = None) /\
    (forall dt, (Z.max 0 d <= dt)%Z ->
       exists w8,
         exec (Env (EnvTick dt) :: solo tid 0 4) w4 = Some w8 /\
         returned w8 tid = Some (RError (Some (ErrorsNew "connect timeout"))) /\
         Contains (Error (ErrorsNew "connect timeout")) "timeout" = true /\
         fresh w4 w8 =
           [(tid, EvSelect (CaseTimer (length (timers w))) None);
            (tid, EvCancel (length (ctxs w)))] /\
         ctx_err w8 (length (ctxs w)) = Some Canceled) /\
    (chan_ready (c_connectOkCh (client w)) = true ->
       exists w6,
         exec (solo tid 1 2) w4 = Some w6 /\
         returned w6 tid = Some (RError None) /\
         ctx_err w6 (length (ctxs w)) = None).
Proof.
  intros Hp Ht Hc. pose proof (lookup_lt_Some _ _ _ Ht) as Hlt.
  destruct (ConnectWithTimeout_start_run w tid d _ lp Hp Ht Hc)
    as (w4 & H4 & Hf & Hth & Hcs & Hcl & Hic & Hts & Hnw & Hp4).
  assert (threads w4 !! tid =
          Some (mkThread (ConnectWithTimeout_select (length (timers w))) lp)) as Ht4.
  { rewrite Hth. apply list_lookup_insert_eq. rewrite length_app. simpl. lia. }
  assert (ctxs w4 !! length (ctxs w) = Some (mkCtx [Background] None)) as Hcx.
  { by rewrite Hcs, lookup_app_r, Nat.sub_diag. }
  assert (timers w4 !! length (timers w) = Some (mkTimer (deadline w d) false false)) as Htm.
  { by rewrite Hts, lookup_app_r, Nat.sub_diag. }
  exists w4. split_and!; try done.
  - unfold pc. by rewrite Ht4.
  - rewrite Hth, list_lookup_insert_ne by lia. by rewrite lookup_app_r, Nat.sub_diag.
  - by rewrite Hcl.
  - intros k e w5 Hs Hk. simpl in Hs. unfold step_env in Hs. rewrite Hp4 in Hs.
    destruct (bool_decide (k = Background)) eqn:Hb; [done|].
    apply bool_decide_eq_false in Hb.
    destruct (ctxs w4 !! k); simpl in Hs; [|done]. injection Hs as <-.
    unfold ctx_err. simpl.
    rewrite (cancel_ctx_other k e _ _ _ Hcx); [done|done|].
    simpl. rewrite elem_of_cons, elem_of_nil. by intros [|].
  - intros Hd Hr pick. eapply ConnectWithTimeout_blocked; [exact Ht4| |].
    + unfold timer_fired. rewrite Htm. simpl. apply Z.leb_gt.
      rewrite Hnw. unfold deadline. lia.
    + by rewrite Hcl.
  - intros dt Hdt.
    assert (0 <= dt)%Z as Hdt0 by lia.
    pose (wt := set_now (now w4 + dt)%Z w4).
    destruct (ConnectWithTimeout_timeout_run wt tid (length (timers w)) (length (ctxs w)) lp)
      as (w8 & H8 & Hr8 & Hf8 & Hcs8 & _); try done.
    { unfold timer_fired, wt. simpl. rewrite Htm. simpl. apply Z.leb_le.
      rewrite Hnw. unfold deadline. lia. }
    { unfold wt. simpl. by rewrite Hcl. }
    exists w8. split_and!; try done.
    + change (step_env (EnvTick dt) w4 ≫= exec (solo tid 0 4) = Some w8).
      unfold step_env. rewrite Hp4.
      apply Z.leb_le in Hdt0. rewrite Hdt0. exact H8.
    + unfold ctx_err. rewrite Hcs8. unfold wt. simpl.
      rewrite (cancel_ctx_lookup _ _ _ _ _ _ Hcx Hcx). simpl.
      rewrite bool_decide_true by auto. done.
  - intros Hr.
    destruct (ConnectWithTimeout_ok_run w4 tid (length (timers w)) lp Hp4 Ht4)
      as (w6 & H6 & Hr6 & _ & _ & _ & Hcs6 & _).
    + by rewrite Hcl.
    + exists w6. split_and!; try done. unfold ctx_err. by rewrite Hcs6, Hcx.
Qed.

Lemma C3_connect_with_timeout_witness :
  exists w w4,
    exec connecting_with_timeout (NewClient "localhost" 8080) = Some w /\
    panicked w = false /\
    threads w !! 0 = Some (mkThread (ConnectWithTimeout (3 * Second)%Z) None) /\
    ctxs w !! Background = Some (mkCtx [] None) /\
    exec (solo 0 0 4) w = Some w4 /\
    pc w4 0 = Some (ConnectWithTimeout_select 0).
Proof.
  pose (w := default (NewClient "" 0)
               (exec connecting_with_timeout (NewClient "localhost" 8080))).
  destruct (C3_connect_with_timeout w 0 (3 * Second)%Z None
              ltac:(vm_compute; reflexivity) ltac:(vm_compute; reflexivity)
              ltac:(vm_compute; reflexivity)) as (w4 & H4 & _ & Hpc & _).
  exists w, w4. do 4 (split; [vm_compute; reflexivity|]).
  split; [exact H4 | exact Hpc].
Defined.

(** ** The connected flag *)

Lemma case_fire_connected c w w1 v :
  case_fire c w = (w1, v) -> c_connected (client w1) = c_connected (client w).
Proof. intros H. destruct c; simplify_eq/=; try done. by destruct ch. Qed.

(** [c.connected] holds what the last [Store] has put there. *)
Lemma act_connected tid pick p w w1 p' :
  act tid pick p w = Some (w1, p') ->
  c_connected (client w1) = last_store (fresh w w1) (c_connected (client w)).
Proof.
  intros Ha. destruct p; cbn [act] in Ha; act_split Ha; fresh_simpl;
    try (simpl; done); try (by destruct ch).
  apply case_fire_connected in E1. simpl. done.
Qed.

Lemma step_connected l w w' :
  step l w = Some w' ->
  c_connected (client w') = last_store (fresh w w') (c_connected (client w)).
Proof.
  intros Hs. destruct l as [tid pick|a]; simpl in Hs.
  - apply step_thread_inv in Hs as (_ & t & w1 & p & _ & Ha & ->).
    exact (act_connected _ _ _ _ _ _ Ha).
  - unfold step_env in Hs. destruct (panicked w); [done|].
    destruct a; act_split Hs; by rewrite fresh_same.
Qed.

Lemma exec_connected ls w w' :
  exec ls w = Some w' ->
  c_connected (client w') = last_store (fresh w w') (c_connected (client w)).
Proof.
  revert w. induction ls as [|l ls IH]; intros w He.
  - simpl in He. injection He as <-. by rewrite fresh_refl.
  - cbn [exec] in He. destruct (step l w) as [wa|] eqn:Hs; [|done].
    cbn [mbind option_bind] in He.
    rewrite (exec_fresh_cons _ _ _ _ _ Hs He). unfold last_store.
    rewrite fold_left_app. fold (last_store (fresh w wa) (c_connected (client w))).
    rewrite <- (step_connected _ _ _ Hs). by apply IH.
Qed.

(** When the trace holds a [Store(true)] and no [Store(false)], the flag is
    true after it. *)
Lemma last_store_true tr b t :
  (t, EvStore true) ∈ tr ->
  (forall t', (t', EvStore false) ∉ tr) ->
  last_store tr b = true.
Proof.
  revert b. induction tr as [|[t0 e] tr IH] using rev_ind; intros b Hin Hno.
  - by apply elem_of_nil in Hin.
  - unfold last_store. rewrite fold_left_app. simpl.
    apply elem_of_app in Hin as [Hin|Hin].
    + fold (last_store tr b). rewrite (IH b Hin).
      * destruct e as [[]| | | | | | | | | | | |]; simpl; try done.
        exfalso. apply (Hno t0). apply elem_of_app. right. rewrite elem_of_cons. auto.
      * intros t' Ht'. apply (Hno t'). apply elem_of_app. by left.
    + apply elem_of_cons in Hin as [[= <- <-]|Hin]; [done|]. by apply elem_of_nil in Hin.
Qed.

Lemma elem_of_events_of tid e tr : e ∈ events_of tid tr <-> (tid, e) ∈ tr.
Proof.
  unfold events_of. rewrite list_elem_of_fmap. split.
  - intros ([t e'] & -> & Hin). apply list_elem_of_filter in Hin as [Heq Hin].
    simpl in Heq. by subst t.
  - intros Hin. exists (tid, e). split; [done|]. by apply list_elem_of_filter.
Qed.

(** A receive from the connect-success channel in a [select] happens only
    when a signal is pending. *)
Lemma act_recv_ready tid pick p w w1 p' c v :
  act tid pick p w = Some (w1, p') ->
  (c, EvSelect (CaseRecv ConnectOkCh) v) ∈ fresh w w1 ->
  chan_ready (c_connectOkCh (client w)) = true.
Proof.
  intros Ha Hin. destruct p; cbn [act] in Ha; act_split Ha; fresh_simpl;
    try (by apply elem_of_nil in Hin);
    try (apply elem_of_cons in Hin as [[=]|Hin]; by apply elem_of_nil in Hin).
  rewrite ?fresh_emit in Hin by done.
  apply elem_of_cons in Hin as [Heq|Hin]; [|by apply elem_of_nil in Hin].
  injection Heq as -> <- <-. exact E0.
Qed.

Lemma step_recv_ready l w w' c v :
  step l w = Some w' ->
  (c, EvSelect (CaseRecv ConnectOkCh) v) ∈ fresh w w' ->
  chan_ready (c_connectOkCh (client w)) = true.
Proof.
  intros Hs Hin. destruct l as [tid pick|a]; simpl in Hs.
  - apply step_thread_inv in Hs as (_ & t & w1 & p & _ & Ha & ->).
    exact (act_recv_ready _ _ _ _ _ _ _ _ Ha Hin).
  - unfold step_env in Hs. destruct (panicked w); [done|].
    destruct a; act_split Hs; rewrite fresh_same in Hin by done;
      by apply elem_of_nil in Hin.
Qed.

(** A receive from the connect-success channel that was empty is preceded
    by a send on it that succeeded. *)
Lemma exec_recv_needs_send ls w w' c v :
  exec ls w = Some w' ->
  chan_ready (c_connectOkCh (client w)) = false ->
  (c, EvSelect (CaseRecv ConnectOkCh) v) ∈ fresh w w' ->
  exists t, (t, EvTrySend ConnectOkCh true) ∈ fresh w w'.
Proof.
  revert w. induction ls as [|l ls IH]; intros w He H0 Hin.
  - simpl in He. injection He as <-. rewrite fresh_refl in Hin. by apply elem_of_nil in Hin.
  - cbn [exec] in He. destruct (step l w) as [wa|] eqn:Hs; [|done].
    cbn [mbind option_bind] in He.
    rewrite (exec_fresh_cons _ _ _ _ _ Hs He) in *.
    destruct (chan_ready (c_connectOkCh (client wa))) eqn:Ha.
    + destruct (step_ok_ready _ _ _ Hs H0 Ha) as [t Hf]. exists t.
      rewrite Hf. apply elem_of_app. left. rewrite elem_of_cons. auto.
    + apply elem_of_app in Hin as [Hin|Hin].
      * apply (step_recv_ready _ _ _ _ _ Hs) in Hin. congruence.
      * destruct (IH wa He Ha Hin) as [t Ht]. exists t. apply elem_of_app. by right.
Qed.

(** The first event of the connection-established hook is its
    [Store(true)]. *)
Lemma onConnStart_first_event tid cn f lp es t' :
  behaves tid (mkThread (Call (onConnStart cn) f) lp) es t' ->
  es = [] \/ exists es', es = EvStore true :: es'.
Proof.
  intros Hb. simpl in Hb. behaves_inv Hb; eauto.
Qed.

(** [IsConnected] returns the flag. *)
Lemma IsConnected_run w tid lp :
  panicked w = false ->
  threads w !! tid = Some (mkThread IsConnected lp) ->
  exists w1,
    exec (solo tid 0 1) w = Some w1 /\
    returned w1 tid = Some (RBool (c_connected (client w))) /\
    fresh w w1 = [] /\ client w1 = client w.
Proof.
  intros Hp Ht. solo_run Ht.
  destruct w as [c ic cs ts nw thr tr pk]. simpl in *. subst pk.
  unfold fresh, returned; simpl. solo_done.
  by rewrite drop_all.
Qed.

(** The claim as the specification words it fails: [Connect] returns nil
    and [IsConnected], called next, returns false, when the connection is
    lost after the connect-success signal was sent and before [Connect]
    receives it. *)
Lemma C6_success_reflects_state_counterexample :
  exists w,
    exec lost_before_return (NewClient "localhost" 8080) = Some w /\
    returned w 0 = Some (RError None) /\
    returned w 4 = Some (RBool false).
Proof.
  pose (w := default (NewClient "" 0)
               (exec lost_before_return (NewClient "localhost" 8080))).
  exists w. split_and!; vm_compute; reflexivity.
Qed.

(** C6, amended: take a stretch of an execution that begins with the
    connect-success channel empty and a connection-established hook [h]
    about to run.  If within the stretch a waiter receives from the
    connect-success channel, only [h] has sent on that channel, and no
    [Store(false)] has happened (the connection-lost hook has not run),
    then at the end of the stretch [c.connected] is true and [IsConnected]
    returns true. *)
Theorem C6_success_reflects_state ls w w' h cn f lp c v :
  exec ls w = Some w' ->
  chan_ready (c_connectOkCh (client w)) = false ->
  threads w !! h = Some (mkThread (Call (onConnStart cn) f) lp) ->
  (forall t, (t, EvTrySend ConnectOkCh true) ∈ fresh w w' -> t = h) ->
  (forall t, (t, EvStore false) ∉ fresh w w') ->
  (c, EvSelect (CaseRecv ConnectOkCh) v) ∈ fresh w w' ->
  c_connected (client w') = true /\
  (panicked w' = false ->
   forall q lq, threads w' !! q = Some (mkThread IsConnected lq) ->
     exists w2, exec (solo q 0 1) w' = Some w2 /\ returned w2 q = Some (RBool true)).
Proof.
  intros He H0 Hh Honly Hno Hrecv.
  assert (c_connected (client w') = true) as Hflag.
  { destruct (exec_recv_needs_send _ _ _ _ _ He H0 Hrecv) as [t Hsend].
    pose proof (Honly t Hsend) as ->.
    destruct (exec_behaves _ _ _ _ _ He Hh) as (t' & _ & Hb).
    apply onConnStart_first_event in Hb as [Hnil | [es' Hes]].
    - apply elem_of_events_of in Hsend. rewrite Hnil in Hsend. by apply elem_of_nil in Hsend.
    - rewrite (exec_connected _ _ _ He).
      apply (last_store_true _ _ h); [|exact Hno].
      apply elem_of_events_of. rewrite Hes. rewrite elem_of_cons. auto. }
  split; [exact Hflag|].
  intros Hp q lq Hq.
  destruct (IsConnected_run w' q lq Hp Hq) as (w2 & H2 & Hr & _).
  exists w2. by rewrite <- Hflag.
Qed.

Lemma C6_success_reflects_state_witness :
  exists w w',
    exec connect_waiting (NewClient "localhost" 8080) = Some w /\
    exec connect_succeeds w = Some w' /\
    returned w' 0 = Some (RError None) /\
    c_connected (client w') = true /\
    exists w2, exec (solo 3 0 1) w' = Some w2 /\ returned w2 3 = Some (RBool true).
Proof.
  pose (w := default (NewClient "" 0) (exec connect_waiting (NewClient "localhost" 8080))).
  pose (w' := default w (exec connect_succeeds w)).
  assert (fresh w w' =
          [(2, EvStore true); (2, EvTrySend ConnectOkCh true);
           (0, EvSelect (CaseRecv ConnectOkCh) None)]) as Hf
    by (vm_compute; reflexivity).
  destruct (C6_success_reflects_state connect_succeeds w w' 2 cn0 Ret None 0 None)
    as [Hflag Hret].
  - vm_compute; reflexivity.
  - vm_compute; reflexivity.
  - vm_compute; reflexivity.
  - intros t Hin. rewrite Hf in Hin.
    repeat (apply elem_of_cons in Hin as [Heq|Hin]; [by injection Heq|]).
    by apply elem_of_nil in Hin.
  - intros t Hin. rewrite Hf in Hin.
    repeat (apply elem_of_cons in Hin as [Heq|Hin]; [discriminate Heq|]).
    by apply elem_of_nil in Hin.
  - rewrite Hf. rewrite !elem_of_cons. auto.
  - exists w, w'. split; [vm_compute; reflexivity|]. split; [vm_compute; reflexivity|].
    split; [vm_compute; reflexivity|]. split; [exact Hflag|].
    exact (Hret ltac:(vm_compute; reflexivity) 3 None ltac:(vm_compute; reflexivity)).
Defined.

(** * Further properties of the package *)

(** ** [Stop] *)

(** [Stop] with a cancel function stored: it calls it. *)
Lemma Stop_run w tid cx lp :
  panicked w = false ->
  threads w !! tid = Some (mkThread Stop lp) ->
  c_cancel (client w) = Some cx ->
  exists w2,
    exec (solo tid 0 2) w = Some w2 /\
    returned w2 tid = Some RUnit /\
    fresh w w2 = [(tid, EvCancel cx)] /\
    ctxs w2 = cancel_ctx cx Canceled (ctxs w) /\
    threads w2 = <[tid := mkThread (Ret RUnit) lp]> (threads w) /\
    client w2 = client w /\ iclient w2 = iclient w /\ timers w2 = timers w /\
    now w2 = now w /\ panicked w2 = false.
Proof.
  intros Hp Ht Hx. solo_run Ht.
  destruct w as [c ic cs ts nw thr tr pk]. simpl in *. subst pk.
  unfold fresh, returned; simpl. rewrite Hx. simpl. solo_done.
Qed.

(** [Stop] with [c.cancel] nil: nothing happens. *)
Lemma Stop_nil_run w tid lp :
  panicked w = false ->
  threads w !! tid = Some (mkThread Stop lp) ->
  c_cancel (client w) = None ->
  exists w1,
    exec (solo tid 0 1) w = Some w1 /\
    returned w1 tid = Some RUnit /\
    fresh w w1 = [] /\
    ctxs w1 = ctxs w /\ client w1 = client w /\ iclient w1 = iclient w /\
    panicked w1 = false.
Proof.
  intros Hp Ht Hx. solo_run Ht.
  destruct w as [c ic cs ts nw thr tr pk]. simpl in *. subst pk.
  unfold fresh, returned; simpl. rewrite Hx. simpl. solo_done.
  by rewrite drop_all.
Qed.

(** [SetReconnectIntvl] *)
Lemma SetReconnectIntvl_run w tid d lp :
  panicked w = false ->
  threads w !! tid = Some (mkThread (SetReconnectIntvl d) lp) ->
  exists w1,
    exec (solo tid 0 1) w = Some w1 /\
    returned w1 tid = Some RUnit /\
    fresh w w1 = [] /\
    client w1 = set_reconnectIntvl d (client w) /\
    threads w1 = <[tid := mkThread (Ret RUnit) lp]> (threads w) /\
    iclient w1 = iclient w /\ ctxs w1 = ctxs w /\ now w1 = now w /\
    panicked w1 = false.
Proof.
  intros Hp Ht. solo_run Ht.
  destruct w as [c ic cs ts nw thr tr pk]. simpl in *. subst pk.
  unfold fresh, returned; simpl. solo_done.
  by rewrite drop_all.
Qed.

(** The top of an iteration of the loop: [c.ctx] is read and the [select]
    is entered on it. *)
Lemma loop_top_run w tid cx :
  panicked w = false ->
  threads w !! tid = Some looping_thread ->
  c_ctx (client w) = Some cx ->
  exists w1,
    exec (solo tid 0 1) w = Some w1 /\
    threads w1 = <[tid := supervisor_thread cx]> (threads w) /\
    fresh w w1 = [] /\
    client w1 = client w /\ iclient w1 = iclient w /\ ctxs w1 = ctxs w /\
    now w1 = now w /\ panicked w1 = false.
Proof.
  intros Hp Ht Hx. solo_run Ht.
  destruct w as [c ic cs ts nw thr tr pk]. simpl in *. subst pk.
  unfold fresh, returned; simpl. rewrite Hx. simpl. solo_done.
  by rewrite drop_all.
Qed.

(** X1: on a client fresh from [NewClient], [IsConnected] returns false,
    [Stop] returns without cancelling anything, the reconnect interval is
    one second, both signal channels are empty, and the first connection
    the Transport reports runs [onConnStart]. *)
Theorem X1_new_client host port :
  (exists w, exec [Env (EnvCall IsConnected); Go 0 0] (NewClient host port) = Some w /\
             returned w 0 = Some (RBool false)) /\
  (exists w, exec [Env (EnvCall Stop); Go 0 0] (NewClient host port) = Some w /\
             returned w 0 = Some RUnit /\ trace w = [] /\
             ctxs w = ctxs (NewClient host port)) /\
  c_reconnectIntvl (client (NewClient host port)) = (1000 * Millisecond)%Z /\
  (forall ch, chan_ready (get_chan ch (client (NewClient host port))) = false) /\
  (forall cn, exists w, exec [Env (EnvConnStart cn)] (NewClient host port) = Some w /\
                        threads w !! 0 = Some (mkThread (onConnStart cn) None)).
Proof.
  split_and!.
  - eexists. split; reflexivity.
  - eexists. split_and!; reflexivity.
  - reflexivity.
  - by intros [].
  - intros cn. eexists. split; reflexivity.
Qed.

(** X3: a second [Stop] changes nothing: when the context of [c.cancel] is
    already cancelled, [Stop] returns and every context keeps its state. *)
Theorem X3_stop_again w tid cx e lp :
  panicked w = false ->
  threads w !! tid = Some (mkThread Stop lp) ->
  c_cancel (client w) = Some cx ->
  ctx_err w cx = Some e ->
  exists w2,
    exec (solo tid 0 2) w = Some w2 /\
    returned w2 tid = Some RUnit /\
    ctxs w2 = ctxs w /\ client w2 = client w.
Proof.
  intros Hp Ht Hx He.
  destruct (Stop_run w tid cx lp Hp Ht Hx) as (w2 & H2 & Hr & _ & Hcs & _ & Hcl & _).
  exists w2. split_and!; try done.
  rewrite Hcs. unfold cancel_ctx, ctx_err in *.
  destruct (ctxs w !! cx) as [[a [e'|]]|]; simpl in He; done.
Qed.

Lemma X3_stop_again_witness :
  exists w w2,
    exec (stopped ++ [Env (EnvCall Stop)]) (NewClient "localhost" 8080) = Some w /\
    ctx_err w 1 = Some Canceled /\
    exec (solo 3 0 2) w = Some w2 /\
    ctxs w2 = ctxs w.
Proof.
  pose (w := default (NewClient "" 0)
               (exec (stopped ++ [Env (EnvCall Stop)]) (NewClient "localhost" 8080))).
  destruct (X3_stop_again w 3 1 Canceled None
              ltac:(vm_compute; reflexivity) ltac:(vm_compute; reflexivity)
              ltac:(vm_compute; reflexivity) ltac:(vm_compute; reflexivity))
    as (w2 & H2 & _ & Hcs & _).
  exists w, w2. do 2 (split; [vm_compute; reflexivity|]). split; [exact H2 | exact Hcs].
Defined.

(** X6: along every execution from [NewClient], [IsConnected] returns what
    the last [Store] of a hook has put in [c.connected], and false when no
    hook has run; the call changes nothing. *)
Theorem X6_is_connected_last_store ls host port w q lq :
  exec ls (NewClient host port) = Some w ->
  panicked w = false ->
  threads w !! q = Some (mkThread IsConnected lq) ->
  exists w1,
    exec (solo q 0 1) w = Some w1 /\
    returned w1 q = Some (RBool (last_store (trace w) false)) /\
    fresh w w1 = [] /\ client w1 = client w.
Proof.
  intros He Hp Hq.
  destruct (IsConnected_run w q lq Hp Hq) as (w1 & H1 & Hr & Hf & Hc).
  exists w1. split_and!; try done.
  rewrite Hr. rewrite (exec_connected _ _ _ He). done.
Qed.

Lemma X6_is_connected_last_store_witness :
  exists w w1,
    exec (disconnected ++ [Env (EnvCall IsConnected)]) (NewClient "localhost" 8080) = Some w /\
    exec (solo 4 0 1) w = Some w1 /\
    returned w1 4 = Some (RBool (last_store (trace w) false)) /\
    last_store (trace w) false = false.
Proof.
  pose (w := default (NewClient "" 0)
               (exec (disconnected ++ [Env (EnvCall IsConnected)])
                     (NewClient "localhost" 8080))).
  destruct (X6_is_connected_last_store
              (disconnected ++ [Env (EnvCall IsConnected)]) "localhost" 8080 w 4 None
              ltac:(vm_compute; reflexivity) ltac:(vm_compute; reflexivity)
              ltac:(vm_compute; reflexivity)) as (w1 & H1 & Hr & _).
  exists w, w1. split; [vm_compute; reflexivity|]. split; [exact H1|].
  split; [exact Hr | vm_compute; reflexivity].
Defined.

(** What [StartWithContext] leaves alone. *)
Lemma StartWithContext_frame w tid ctx n lp :
  panicked w = false ->
  threads w !! tid = Some (mkThread (StartWithContext ctx) lp) ->
  ctxs w !! ctx = Some n ->
  exists w3,
    exec (solo tid 0 3) w = Some w3 /\
    threads w3 = <[tid := mkThread (Ret RUnit) lp]> (threads w ++ [looping_thread]) /\
    ctxs w3 = ctxs w ++ [with_cancel n ctx] /\
    client w3 = set_ctx_cancel (length (ctxs w)) (client w) /\
    iclient w3 = iclient w /\ timers w3 = timers w /\ now w3 = now w /\
    panicked w3 = false.
Proof.
  intros Hp Ht Hc. solo_run Ht.
  destruct w as [c ic cs ts nw thr tr pk]. simpl in *. subst pk.
  unfold fresh; simpl. rewrite Hc. simpl. solo_done.
Qed.

(** X2: [Stop] ends the loop started by the latest [StartWithContext]:
    after a start under a live context, once the loop goroutine has entered
    its [select], a call of [Stop] cancels the context the loop waits on,
    and the loop goroutine then stops the Transport if [Conn()] is not nil
    and returns. *)
Theorem X2_stop_ends_loop w tid s ctx a :
  panicked w = false ->
  threads w !! tid = Some (mkThread (StartWithContext ctx) None) ->
  threads w !! s = Some (mkThread Stop None) ->
  ctxs w !! ctx = Some (mkCtx a None) ->
  exists w6 w',
    exec (solo tid 0 3 ++ solo (length (threads w)) 0 1 ++ solo s 0 2) w = Some w6 /\
    ctx_err w6 (length (ctxs w)) = Some Canceled /\
    exec (solo (length (threads w)) 0 (if conn (iclient w) is Some _ then 3 else 2)) w6
      = Some w' /\
    returned w' (length (threads w)) = Some RUnit /\
    fresh w6 w' =
      (length (threads w), EvSelect (CaseDone (length (ctxs w))) None) ::
      (if conn (iclient w) is Some _ then [(length (threads w), EvTransport OpStop)]
       else []).
Proof.
  intros Hp Ht Hs Hc.
  pose proof (lookup_lt_Some _ _ _ Ht) as Hlt.
  pose proof (lookup_lt_Some _ _ _ Hs) as Hls.
  assert (tid <> s) as Hne by (intros ->; rewrite Ht in Hs; done).
  destruct (StartWithContext_frame w tid ctx _ None Hp Ht Hc)
    as (w3 & H3 & Hth3 & Hcs3 & Hcl3 & Hic3 & _ & _ & Hp3).
  set (l := length (threads w)) in *. set (cx := length (ctxs w)) in *.
  assert (threads w3 !! l = Some looping_thread) as Hl3.
  { rewrite Hth3, list_lookup_insert_ne by (unfold l; lia).
    by rewrite lookup_app_r, Nat.sub_diag. }
  destruct (loop_top_run w3 l cx Hp3 Hl3) as (w4 & H4 & Hth4 & _ & Hcl4 & Hic4 & Hcs4 & _ & Hp4).
  { by rewrite Hcl3. }
  assert (threads w4 !! s = Some (mkThread Stop None)) as Hs4.
  { rewrite Hth4, list_lookup_insert_ne by (unfold l; lia).
    rewrite Hth3, list_lookup_insert_ne by done. by apply lookup_app_l_Some. }
  destruct (Stop_run w4 s cx None Hp4 Hs4)
    as (w6 & H6 & _ & _ & Hcs6 & Hth6 & Hcl6 & Hic6 & _ & _ & Hp6).
  { by rewrite Hcl4, Hcl3. }
  assert (ctxs w4 !! cx = Some (mkCtx (ctx :: a) None)) as Hcx4.
  { rewrite Hcs4, Hcs3. by rewrite lookup_app_r, Nat.sub_diag. }
  assert (ctx_err w6 cx = Some Canceled) as Herr6.
  { unfold ctx_err. rewrite Hcs6, (cancel_ctx_lookup _ _ _ _ _ _ Hcx4 Hcx4). simpl.
    by rewrite bool_decide_true by auto. }
  assert (threads w6 !! l = Some (supervisor_thread cx)) as Hl6.
  { rewrite Hth6, list_lookup_insert_ne by (unfold l; lia).
    rewrite Hth4. apply list_lookup_insert_eq. by eapply lookup_lt_Some. }
  destruct (cancel_branch_run w6 l cx Canceled Hp6 Hl6 Herr6) as (w' & H' & Hr' & Hp' & Hf').
  assert (conn (iclient w6) = conn (iclient w)) as Hconn by (by rewrite Hic6, Hic4, Hic3).
  rewrite Hconn in H', Hf'.
  exists w6, w'. split_and!; try done.
  rewrite exec_app, H3. cbn [mbind option_bind]. rewrite exec_app, H4.
  cbn [mbind option_bind]. exact H6.
Qed.

Lemma X2_stop_ends_loop_witness :
  exists w w6 w',
    exec start_stop_calls (NewClient "localhost" 8080) = Some w /\
    exec (solo 0 0 3 ++ solo 2 0 1 ++ solo 1 0 2) w = Some w6 /\
    ctx_err w6 1 = Some Canceled /\
    exec (solo 2 0 2) w6 = Some w' /\
    returned w' 2 = Some RUnit.
Proof.
  pose (w := default (NewClient "" 0) (exec start_stop_calls (NewClient "localhost" 8080))).
  destruct (X2_stop_ends_loop w 0 1 Background []
              ltac:(vm_compute; reflexivity) ltac:(vm_compute; reflexivity)
              ltac:(vm_compute; reflexivity) ltac:(vm_compute; reflexivity))
    as (w6 & w' & H6 & He & H' & Hr & _).
  exists w, w6, w'. split; [vm_compute; reflexivity|].
  split; [exact H6|]. split; [exact He|]. split; [exact H' | exact Hr].
Defined.

(** X4: [Stop] unblocks a waiting [Connect]: while the context stored by
    the start is live and no connect-success signal is pending [Connect]
    takes no step; after a call of [Stop] it returns [context.Canceled],
    whose message contains "context canceled". *)
Theorem X4_stop_unblocks_connect w c s cx a lp :
  panicked w = false ->
  threads w !! c = Some (mkThread (Connect_select cx) lp) ->
  threads w !! s = Some (mkThread Stop None) ->
  c_ctx (client w) = Some cx ->
  c_cancel (client w) = Some cx ->
  ctxs w !! cx = Some (mkCtx a None) ->
  (chan_ready (c_connectOkCh (client w)) = false ->
   forall pick, step (Go c pick) w = None) /\
  exists w',
    exec (solo s 0 2 ++ solo c 0 3) w = Some w' /\
    returned w' c = Some (RError (Some (CtxError Canceled))) /\
    Contains (Error (CtxError Canceled)) "context canceled" = true.
Proof.
  intros Hp Hc Hs Hx Hcan Hcx.
  assert (c <> s) as Hne by (intros ->; rewrite Hc in Hs; done).
  split.
  - intros Hr pick. eapply Connect_blocked; [exact Hc| |exact Hr].
    unfold ctx_err. by rewrite Hcx.
  - destruct (Stop_run w s cx None Hp Hs Hcan)
      as (w2 & H2 & _ & _ & Hcs2 & Hth2 & Hcl2 & _ & _ & _ & Hp2).
    destruct (Connect_done_run w2 c cx Canceled lp Hp2) as (w' & H' & Hr' & _).
    + rewrite Hth2, list_lookup_insert_ne by done. exact Hc.
    + unfold ctx_err. rewrite Hcs2, (cancel_ctx_lookup _ _ _ _ _ _ Hcx Hcx). simpl.
      by rewrite bool_decide_true by auto.
    + by rewrite Hcl2.
    + exists w'. split_and!; try done.
      rewrite exec_app, H2. exact H'.
Qed.

Lemma X4_stop_unblocks_connect_witness :
  exists w w',
    exec (connecting ++ solo 0 0 4 ++ [Env (EnvCall Stop)])
         (NewClient "localhost" 8080) = Some w /\
    exec (solo 2 0 2 ++ solo 0 0 3) w = Some w' /\
    returned w' 0 = Some (RError (Some (CtxError Canceled))).
Proof.
  pose (w := default (NewClient "" 0)
               (exec (connecting ++ solo 0 0 4 ++ [Env (EnvCall Stop)])
                     (NewClient "localhost" 8080))).
  destruct (proj2 (X4_stop_unblocks_connect w 0 2 2 [1; Background] None
              ltac:(vm_compute; reflexivity) ltac:(vm_compute; reflexivity)
              ltac:(vm_compute; reflexivity) ltac:(vm_compute; reflexivity)
              ltac:(vm_compute; reflexivity) ltac:(vm_compute; reflexivity)))
    as (w' & H' & Hr & _).
  exists w, w'. split; [vm_compute; reflexivity|]. split; [exact H' | exact Hr].
Defined.

(** X5: the interval set by [SetReconnectIntvl] is the one the loop sleeps
    for: after [SetReconnectIntvl(d)], the dial-error case sleeps for [d],
    until the clock has advanced by [d] (not at all when [d] is not
    positive). *)
Theorem X5_interval_used_by_sleep w s tid cx d e es :
  panicked w = false ->
  threads w !! s = Some (mkThread (SetReconnectIntvl d) None) ->
  threads w !! tid = Some (supervisor_thread cx) ->
  errChan (iclient w) = e :: es ->
  exists w',
    exec (solo s 0 1 ++ solo tid 2 5) w = Some w' /\
    fresh w w' =
      [(tid, EvSelect CaseErrChan (Some e)); (tid, EvLog (LogDialErr (Some e) d));
       (tid, EvSleep d)] /\
    threads w' !! tid = Some (sleeping_thread (now w + Z.max 0 d)) /\
    ((0 < d)%Z -> forall pick, step (Go tid pick) w' = None) /\
    forall dt, (Z.max 0 d <= dt)%Z ->
      exists w2, exec (Env (EnvTick dt) :: solo tid 2 2) w' = Some w2 /\
                 fresh w' w2 = [(tid, EvTransport OpRestart)].
Proof.
  intros Hp Hs Ht He.
  assert (s <> tid) as Hne by (intros ->; rewrite Hs in Ht; done).
  destruct (SetReconnectIntvl_run w s d None Hp Hs)
    as (w1 & H1 & _ & Hf1 & Hcl1 & Hth1 & Hic1 & _ & Hn1 & Hp1).
  destruct (dial_error_branch_run w1 tid cx e es Hp1)
    as (w5 & H5 & Hf5 & _ & _ & _ & Ht5 & Hn5 & Hp5 & _).
  { rewrite Hth1, list_lookup_insert_ne by done. exact Ht. }
  { by rewrite Hic1. }
  rewrite Hcl1 in Hf5, Ht5. simpl in Hf5, Ht5. unfold deadline in Ht5. rewrite Hn1 in Ht5.
  assert (exec (solo s 0 1 ++ solo tid 2 5) w = Some w5) as Hall
    by (rewrite exec_app, H1; exact H5).
  exists w5. split_and!; try done.
  - rewrite (fresh_trans w w1 w5) by (eapply exec_trace_app; eauto).
    by rewrite Hf1, Hf5.
  - intros Hd pick. eapply sleeping_blocked; [exact Ht5|]. rewrite Hn5, Hn1. lia.
  - intros dt Hdt. assert (0 <= dt)%Z as Hdt0 by lia.
    pose (wt := set_now (now w5 + dt)%Z w5).
    destruct (wake_restart_run wt tid 2 (now w + Z.max 0 d)) as (w7 & H7 & Hf7 & _); try done.
    { subst wt. simpl. rewrite Hn5, Hn1. lia. }
    exists w7. split; [|exact Hf7].
    change (step_env (EnvTick dt) w5 ≫= exec (solo tid 2 2) = Some w7).
    unfold step_env. rewrite Hp5. apply Z.leb_le in Hdt0. rewrite Hdt0. exact H7.
Qed.

Lemma X5_interval_used_by_sleep_witness :
  exists w w',
    exec (dial_failed_setting refused (50 * Millisecond)%Z)
         (NewClient "localhost" 8080) = Some w /\
    exec (solo 2 0 1 ++ solo 1 2 5) w = Some w' /\
    threads w' !! 1 = Some (sleeping_thread (now w + Z.max 0 (50 * Millisecond))).
Proof.
  pose (w := default (NewClient "" 0)
               (exec (dial_failed_setting refused (50 * Millisecond)%Z)
                     (NewClient "localhost" 8080))).
  destruct (X5_interval_used_by_sleep w 2 1 1 (50 * Millisecond)%Z refused []
              ltac:(vm_compute; reflexivity) ltac:(vm_compute; reflexivity)
              ltac:(vm_compute; reflexivity) ltac:(vm_compute; reflexivity))
    as (w' & H' & _ & Ht & _).
  exists w, w'. split; [vm_compute; reflexivity|]. split; [exact H' | exact Ht].
Defined.

(** X8: [Stop] cancels only the context of the latest start: a loop
    goroutine that waits at its [select] on an earlier context, which is
    neither the cancelled one nor one of its descendants, is not woken by
    [Stop] and stays blocked while no disconnect signal or dial error
    arrives. *)
Theorem X8_stop_misses_earlier_loop w l s cx1 cx2 a :
  panicked w = false ->
  threads w !! l = Some (supervisor_thread cx1) ->
  threads w !! s = Some (mkThread Stop None) ->
  c_cancel (client w) = Some cx2 ->
  cx2 <> cx1 ->
  ctxs w !! cx1 = Some (mkCtx a None) ->
  cx2 ∉ a ->
  chan_ready (c_disconnectCh (client w)) = false ->
  errChan (iclient w) = [] ->
  exists w2,
    exec (solo s 0 2) w = Some w2 /\
    returned w2 s = Some RUnit /\
    ctx_err w2 cx1 = None /\
    forall pick, step (Go l pick) w2 = None.
Proof.
  intros Hp Hl Hs Hcan Hne Hcx Hanc Hd He.
  assert (l <> s) as Hls by (intros ->; rewrite Hl in Hs; done).
  destruct (Stop_run w s cx2 None Hp Hs Hcan)
    as (w2 & H2 & Hr & _ & Hcs2 & Hth2 & Hcl2 & Hic2 & _ & _ & Hp2).
  assert (ctx_err w2 cx1 = None) as Herr.
  { unfold ctx_err. rewrite Hcs2. by rewrite (cancel_ctx_other _ _ _ _ _ Hcx). }
  exists w2. split_and!; try done.
  intros pick. simpl. unfold step_thread. rewrite Hp2, Hth2.
  rewrite list_lookup_insert_ne by done. rewrite Hl. simpl.
  destruct pick as [|[|[|pick]]]; simpl; rewrite ?Herr, ?Hcl2, ?Hd, ?Hic2, ?He; done.
Qed.

Lemma X8_stop_misses_earlier_loop_witness :
  exists w w2,
    exec started_twice (NewClient "localhost" 8080) = Some w /\
    active_loops w = 2 /\
    exec (solo 4 0 2) w = Some w2 /\
    ctx_err w2 1 = None /\ ctx_err w2 2 = Some Canceled /\
    forall pick, step (Go 1 pick) w2 = None.
Proof.
  pose (w := default (NewClient "" 0) (exec started_twice (NewClient "localhost" 8080))).
  destruct (X8_stop_misses_earlier_loop w 1 4 1 2 [Background]
              ltac:(vm_compute; reflexivity) ltac:(vm_compute; reflexivity)
              ltac:(vm_compute; reflexivity) ltac:(vm_compute; reflexivity)
              ltac:(done) ltac:(vm_compute; reflexivity)
              ltac:(rewrite elem_of_cons, elem_of_nil; by intros [|])
              ltac:(vm_compute; reflexivity) ltac:(vm_compute; reflexivity))
    as (w2 & H2 & _ & He & Hb).
  exists w, w2. do 2 (split; [vm_compute; reflexivity|]).
  split; [exact H2|]. split; [exact He|]. split; [|exact Hb].
  assert (Some w2 = exec (solo 4 0 2) w) as Heq by (symmetry; exact H2).
  vm_compute in Heq. injection Heq as ->. vm_compute. reflexivity.
Defined.

(** What a successful [Connect] leaves alone. *)
Lemma Connect_ok_frame w tid cx lp :
  panicked w = false ->
  threads w !! tid = Some (mkThread (Connect_select cx) lp) ->
  chan_ready (c_connectOkCh (client w)) = true ->
  exists w1,
    exec (solo tid 1 1) w = Some w1 /\
    returned w1 tid = Some (RError None) /\
    threads w1 = <[tid := mkThread (Ret (RError None)) lp]> (threads w) /\
    c_connectOkCh (client w1) = chan_pop (c_connectOkCh (client w)) /\
    ctxs w1 = ctxs w /\ panicked w1 = false.
Proof.
  intros Hp Ht Hd. solo_run Ht.
  destruct w as [c ic cs ts n thr tr pk].
  destruct c as [cc ccan dch och cnd ri]. simpl in *. subst pk.
  destruct och as [ocap [|[] obuf]]; [discriminate|].
  unfold fresh, returned; simpl. solo_done.
Qed.

(** X7: a connect-success signal lets one waiter through: when two callers
    wait in [Connect] and one signal is pending, the one that receives it
    returns nil, the channel is empty again, and the other, whose context is
    live, stays blocked. *)
Theorem X7_signal_consumed_once w c1 c2 cx1 cx2 lp1 lp2 :
  panicked w = false ->
  chans_ok w ->
  threads w !! c1 = Some (mkThread (Connect_select cx1) lp1) ->
  threads w !! c2 = Some (mkThread (Connect_select cx2) lp2) ->
  c1 <> c2 ->
  chan_ready (c_connectOkCh (client w)) = true ->
  ctx_err w cx2 = None ->
  exists w1,
    exec (solo c1 1 1) w = Some w1 /\
    returned w1 c1 = Some (RError None) /\
    chan_ready (c_connectOkCh (client w1)) = false /\
    forall pick, step (Go c2 pick) w1 = None.
Proof.
  intros Hp Hok H1 H2 Hne Hr He.
  destruct (Connect_ok_frame w c1 cx1 lp1 Hp H1 Hr) as (w1 & Hx & Hret & Hth & Hch & Hcs & Hp1).
  assert (chan_ready (c_connectOkCh (client w1)) = false) as Hempty.
  { rewrite Hch. destruct (Hok ConnectOkCh) as [_ Hl]. simpl in Hl.
    unfold chan_ready, chan_pop in *. simpl.
    destruct (ch_buf (c_connectOkCh (client w))) as [|[] [|]]; simpl in *; try done; lia. }
  exists w1. split_and!; try done.
  intros pick. eapply Connect_blocked; [| |exact Hempty].
  - rewrite Hth, list_lookup_insert_ne by done. exact H2.
  - unfold ctx_err in *. by rewrite Hcs.
Qed.

Lemma X7_signal_consumed_once_witness :
  exists w w1,
    exec two_waiters (NewClient "localhost" 8080) = Some w /\
    exec (solo 0 1 1) w = Some w1 /\
    returned w1 0 = Some (RError None) /\
    forall pick, step (Go 2 pick) w1 = None.
Proof.
  pose (w := default (NewClient "" 0) (exec two_waiters (NewClient "localhost" 8080))).
  assert (exec two_waiters (NewClient "localhost" 8080) = Some w) as Hw
    by (vm_compute; reflexivity).
  destruct (X7_signal_consumed_once w 0 2 1 2 None None
              ltac:(vm_compute; reflexivity) (reachable_chans_ok _ _ _ _ Hw)
              ltac:(vm_compute; reflexivity) ltac:(vm_compute; reflexivity)
              ltac:(done) ltac:(vm_compute; reflexivity) ltac:(vm_compute; reflexivity))
    as (w1 & H1 & Hr & _ & Hb).
  exists w, w1. split; [exact Hw|]. split; [exact H1|]. split; [exact Hr | exact Hb].
Defined.

(** X9: the loop reads [c.ctx] anew on every iteration: when its sleep is
    over the loop goroutine restarts the Transport and enters its next
    [select] on the context [c.ctx] holds then, whichever start stored
    it. *)
Theorem X9_next_iteration_rereads_ctx w l t cx :
  panicked w = false ->
  threads w !! l = Some (sleeping_thread t) ->
  (t <= now w)%Z ->
  c_ctx (client w) = Some cx ->
  exists w3,
    exec (solo l 0 3) w = Some w3 /\
    fresh w w3 = [(l, EvTransport OpRestart)] /\
    threads w3 !! l = Some (supervisor_thread cx).
Proof.
  intros Hp Hl Ht Hx.
  destruct (wake_restart_run w l 0 t Hp Hl Ht) as (w2 & H2 & Hf2 & Hl2 & Hcl2 & Hp2).
  destruct (loop_top_run w2 l cx Hp2 Hl2) as (w3 & H3 & Hth3 & Hf3 & _).
  { by rewrite Hcl2. }
  exists w3. split_and!.
  - change (solo l 0 3) with (solo l 0 2 ++ solo l 0 1). rewrite exec_app, H2. exact H3.
  - assert (exec (solo l 0 2 ++ solo l 0 1) w = Some w3) as Hall
      by (rewrite exec_app, H2; exact H3).
    rewrite (fresh_trans w w2 w3) by (eapply exec_trace_app; eauto).
    by rewrite Hf2, Hf3.
  - rewrite Hth3. apply list_lookup_insert_eq. by eapply lookup_lt_Some.
Qed.

Lemma X9_next_iteration_rereads_ctx_witness :
  exists w w3,
    exec restarted_while_asleep (NewClient "localhost" 8080) = Some w /\
    exec (solo 1 0 3) w = Some w3 /\
    threads w3 !! 1 = Some (supervisor_thread 2).
Proof.
  pose (w := default (NewClient "" 0)
               (exec restarted_while_asleep (NewClient "localhost" 8080))).
  destruct (X9_next_iteration_rereads_ctx w 1 Second 2
              ltac:(vm_compute; reflexivity) ltac:(vm_compute; reflexivity)
              ltac:(vm_compute; discriminate) ltac:(vm_compute; reflexivity))
    as (w3 & H3 & _ & Ht).
  exists w, w3. split; [vm_compute; reflexivity|]. split; [exact H3 | exact Ht].
Defined.

(** ** The timer of [ConnectWithTimeout] *)

Lemma ConnectWithTimeout_timeout_timer w tid t cx lp :
  panicked w = false ->
  threads w !! tid = Some (mkThread (ConnectWithTimeout_select t) lp) ->
  timer_fired w t = true ->
  c_cancel (client w) = Some cx ->
  exists w4,
    exec (solo tid 0 4) w = Some w4 /\
    returned w4 tid = Some (RError (Some (ErrorsNew "connect timeout"))) /\
    timers w4 =
      alter (fun tm => mkTimer (tm_when tm) true (tm_received tm)) t
        (alter (fun tm => mkTimer (tm_when tm) (tm_stopped tm) true) t (timers w)).
Proof.
  intros Hp Ht Hf Hx. solo_run Ht.
  destruct w as [c ic cs ts nw thr tr pk]. simpl in *. subst pk.
  unfold fresh, returned; simpl. rewrite Hf. simpl. rewrite Hx. simpl. solo_done.
Qed.

Lemma ConnectWithTimeout_ok_timer w tid t lp :
  panicked w = false ->
  threads w !! tid = Some (mkThread (ConnectWithTimeout_select t) lp) ->
  chan_ready (c_connectOkCh (client w)) = true ->
  exists w2,
    exec (solo tid 1 2) w = Some w2 /\
    returned w2 tid = Some (RError None) /\
    timers w2 = alter (fun tm => mkTimer (tm_when tm) true (tm_received tm)) t (timers w).
Proof.
  intros Hp Ht Hd. solo_run Ht.
  destruct w as [c ic cs ts n thr tr pk].
  destruct c as [cc ccan dch och cnd ri]. simpl in *. subst pk.
  destruct och as [ocap [|[] obuf]]; [discriminate|].
  unfold fresh, returned; simpl. solo_done.
Qed.

(** X10: [defer t.Stop()] releases the timer of [ConnectWithTimeout] on
    both returns: after the timeout return and after the success return the
    timer is stopped, so it can no longer fire. *)
Theorem X10_timer_released w tid t tm lp :
  panicked w = false ->
  threads w !! tid = Some (mkThread (ConnectWithTimeout_select t) lp) ->
  timers w !! t = Some tm ->
  (timer_fired w t = true -> forall cx, c_cancel (client w) = Some cx ->
     exists w4,
       exec (solo tid 0 4) w = Some w4 /\
       returned w4 tid = Some (RError (Some (ErrorsNew "connect timeout"))) /\
       tm_stopped <$> timers w4 !! t = Some true /\
       timer_fired w4 t = false) /\
  (chan_ready (c_connectOkCh (client w)) = true ->
     exists w2,
       exec (solo tid 1 2) w = Some w2 /\
       returned w2 tid = Some (RError None) /\
       tm_stopped <$> timers w2 !! t = Some true /\
       timer_fired w2 t = false).
Proof.
  intros Hp Ht Htm. split.
  - intros Hf cx Hx.
    destruct (ConnectWithTimeout_timeout_timer w tid t cx lp Hp Ht Hf Hx)
      as (w4 & H4 & Hr & Hts).
    exists w4. split; [done|]. split; [done|].
    unfold timer_fired. rewrite Hts, !list_lookup_alter, !decide_True, Htm by done. simpl. done.
  - intros Hr.
    destruct (ConnectWithTimeout_ok_timer w tid t lp Hp Ht Hr) as (w2 & H2 & Hr2 & Hts).
    exists w2. split; [done|]. split; [done|].
    unfold timer_fired. rewrite Hts, !list_lookup_alter, !decide_True, Htm by done. simpl. done.
Qed.

Lemma X10_timer_released_witness :
  exists w w4,
    exec (waiting_with_timeout ++ [Env (EnvTick (3 * Second))])
         (NewClient "localhost" 8080) = Some w /\
    timer_fired w 0 = true /\
    exec (solo 0 0 4) w = Some w4 /\
    timer_fired w4 0 = false.
Proof.
  pose (w := default (NewClient "" 0)
               (exec (waiting_with_timeout ++ [Env (EnvTick (3 * Second))])
                     (NewClient "localhost" 8080))).
  destruct (proj1 (X10_timer_released w 0 0 (mkTimer (3 * Second) false false) None
              ltac:(vm_compute; reflexivity) ltac:(vm_compute; reflexivity)
              ltac:(vm_compute; reflexivity))
              ltac:(vm_compute; reflexivity) 1 ltac:(vm_compute; reflexivity))
    as (w4 & H4 & _ & _ & Hf).
  exists w, w4. do 2 (split; [vm_compute; reflexivity|]). split; [exact H4 | exact Hf].
Defined.
